(** * The handover worker (hooks/handover_worker.py)

    A shallow embedding of the background worker that distils the part of
    an interaction log lying before the latest compaction into a handover
    document: the log parser [parse_jsonl], the two passes
    [pass1_extract] and [pass2_merge] around the external generator, and
    the coordinator [main] with its effects on the file system; and of
    the hook that announces the document, [inject_main]
    (hooks/handover_inject.py).

    Conventions of the model.
    - A Python [str] is a [string]; one [ascii] stands for one code
      point below 256, and [String.length] is Python's [len].
    - The interaction log is held after [read_text().splitlines()] and
      [json.loads]: one [line] per text line, [None] where [json.loads]
      raises [JSONDecodeError].
    - Exceptions are values: a computation that can raise returns a
      [result].
    - The file system, the status file, the clock and the sequence of
      effects performed so far form a [world] that is threaded through
      the coordinator.  Writing a file always succeeds; inside the [try]
      block of [main] only [subprocess.run] raises.
    - The external generator, the clock, [tempfile.mkdtemp] and [str()]
      on a value that is not a string are parameters of the model. *)

From Stdlib Require Import ZArith Lia Ascii String.
From stdpp Require Import base option list gmap strings countable.

Set Warnings "-register-all".
Local Open Scope string_scope.
Local Open Scope nat_scope.

(** ** Python string primitives *)

(** [str.isspace] on one character, for code points below 256: the
    controls 9..13 and 28..31, the space, NEL (133) and NBSP (160). *)
Definition is_space (c : ascii) : bool :=
  let n := nat_of_ascii c in
  (((9 <=? n) && (n <=? 13)) || ((28 <=? n) && (n <=? 32))
   || (n =? 133) || (n =? 160))%nat.

Fixpoint lstrip (s : string) : string :=
  match s with
  | EmptyString => EmptyString
  | String c s' => if is_space c then lstrip s' else s
  end.

Fixpoint rstrip (s : string) : string :=
  match s with
  | EmptyString => EmptyString
  | String c s' =>
      match rstrip s' with
      | EmptyString => if is_space c then EmptyString else String c EmptyString
      | r => String c r
      end
  end.

(** [s.strip()] *)
Definition strip (s : string) : string := rstrip (lstrip s).

(** Truthiness of a [str]: the empty string is false. *)
Definition truthy (s : string) : bool :=
  match s with EmptyString => false | String _ _ => true end.

(** [len(s)] *)
Definition len (s : string) : Z := Z.of_nat (String.length s).

(** The first [n] characters of [s]. *)
Fixpoint str_take (n : nat) (s : string) : string :=
  match n, s with
  | S n', String c s' => String c (str_take n' s')
  | _, _ => EmptyString
  end.

(** [s] without its first [n] characters. *)
Fixpoint str_drop (n : nat) (s : string) : string :=
  match n, s with
  | S n', String _ s' => str_drop n' s'
  | _, _ => s
  end.

(** [s[:n]] for a non-negative [n]. *)
Definition slice_to (n : Z) (s : string) : string :=
  str_take (Z.to_nat n) s.

(** [s[-n:]] for a positive [n]: the last [n] characters, the whole
    string when it has fewer. *)
Definition slice_last (n : Z) (s : string) : string :=
  str_drop (Z.to_nat (len s - n)) s.

(** [sep.join(parts)] on a list of strings. *)
Fixpoint join (sep : string) (parts : list string) : string :=
  match parts with
  | [] => EmptyString
  | [p] => p
  | p :: rest => p ++ sep ++ join sep rest
  end.

(** [needle in hay] *)
Fixpoint str_in (needle hay : string) : bool :=
  if String.prefix needle hay then true
  else match hay with
       | EmptyString => false
       | String _ hay' => str_in needle hay'
       end.

(** ** Exceptions *)

(** The exceptions the parser can raise.  Their messages are not
    modelled: [main] calls the parser outside its [try] block and never
    reads them. *)
Inductive exn := AttributeError | TypeError | IndexError.

Inductive result (A : Type) :=
| Ok (a : A)
| Raise (e : exn).
Arguments Ok {A} a.
Arguments Raise {A} e.

Definition rbind {A B} (r : result A) (k : A -> result B) : result B :=
  match r with
  | Ok a => k a
  | Raise e => Raise e
  end.

Notation "x <- r ;; k" := (rbind r (fun x => k))
  (at level 100, r at next level, right associativity).

(** ** Decoded JSON *)

(** What [json.loads] returns.  An object is held as the list of its
    items, each key once; nothing in the worker looks inside a number,
    so a number is held as its literal. *)
Inductive json :=
| JNull
| JBool (b : bool)
| JNum (literal : string)
| JStr (s : string)
| JArr (items : list json)
| JObj (items : list (string * json)).

(** One line of the log: [None] when [json.loads] raises
    [JSONDecodeError], and the loop goes on to the next line. *)
Definition line := option json.

Fixpoint dict_get (d : list (string * json)) (k : string) : option json :=
  match d with
  | [] => None
  | (k', v) :: d' => if String.eqb k' k then Some v else dict_get d' k
  end.

(** [v.get(k, dflt)]: only a [dict] has the method. *)
Definition py_get (v : json) (k : string) (dflt : json) : result json :=
  match v with
  | JObj d => Ok (default dflt (dict_get d k))
  | _ => Raise AttributeError
  end.

(** [v == s] for a string literal [s]. *)
Definition is_str (v : json) (s : string) : bool :=
  match v with
  | JStr s' => String.eqb s' s
  | _ => false
  end.

(** [isinstance(block, dict) and block.get("type") == ty] *)
Definition block_has_type (ty : string) (block : json) : bool :=
  match block with
  | JObj d => is_str (default JNull (dict_get d "type")) ty
  | _ => false
  end.

(** ** The log parser *)

Definition truncation_marker : string := String "010" "[...truncated...]".
Definition summary_marker : string := "continued from a previous conversation".

(** The [parts] of [extract_text]: [block.get("text", "")] of every text
    block, in order. *)
Definition text_parts (blocks : list json) : list json :=
  omap (fun block =>
          if block_has_type "text" block
          then match block with
               | JObj d => Some (default (JStr "") (dict_get d "text"))
               | _ => None
               end
          else None) blocks.

(** ["\n".join(parts)]: [str.join] raises [TypeError] on an item that is
    not a string. *)
Fixpoint join_values (parts : list json) : result (list string) :=
  match parts with
  | [] => Ok []
  | JStr s :: rest => (ss <- join_values rest ;; Ok (s :: ss))
  | _ :: _ => Raise TypeError
  end.

Definition extract_text (msg : json) : result string :=
  content <- py_get msg "content" (JStr "") ;;
  match content with
  | JStr s => Ok s
  | JArr blocks => (ss <- join_values (text_parts blocks) ;; Ok (join (String "010" "") ss))
  | _ => Ok ""
  end.

Definition has_tool_use (msg : json) : result bool :=
  content <- py_get msg "content" (JArr []) ;;
  match content with
  | JArr blocks => Ok (existsb (block_has_type "tool_use") blocks)
  | _ => Ok false
  end.

(** What [parse_jsonl] returns: the pair [(None, None)] when the log has
    no compaction boundary, [(compaction_summary, conversation)]
    otherwise. *)
Inductive parsed :=
| NoCompaction
| Parsed (compaction_summary : string) (conversation : list string).

(** The test of the first loop on a decoded line. *)
Definition is_compact_boundary (obj : json) : result bool :=
  ty <- py_get obj "type" JNull ;;
  if is_str ty "system"
  then (sub <- py_get obj "subtype" JNull ;; Ok (is_str sub "compact_boundary"))
  else Ok false.

(** The first loop, [for i, line in enumerate(lines)], from index [i]. *)
Fixpoint find_boundaries (i : nat) (lines : list line) : result (list nat) :=
  match lines with
  | [] => Ok []
  | None :: rest => find_boundaries (S i) rest
  | Some obj :: rest =>
      b <- is_compact_boundary obj ;;
      bs <- find_boundaries (S i) rest ;;
      Ok (if b : bool then i :: bs else bs)
  end.

(** [lines[i]] *)
Definition line_at (lines : list line) (i : nat) : result line :=
  match lines !! i with
  | Some l => Ok l
  | None => Raise IndexError
  end.

(** The second loop over the indices [idxs]: the text of the first user
    message that carries the marker phrase, [""] when there is none. *)
Fixpoint find_summary (lines : list line) (idxs : list nat) : result string :=
  match idxs with
  | [] => Ok ""
  | i :: rest =>
      l <- line_at lines i ;;
      match l with
      | None => find_summary lines rest
      | Some obj =>
          msg <- py_get obj "message" (JObj []) ;;
          role <- py_get msg "role" JNull ;;
          if is_str role "user"
          then (text <- extract_text msg ;;
                if str_in summary_marker text then Ok text
                else find_summary lines rest)
          else find_summary lines rest
      end
  end.

(** [range(a, b)] *)
Definition py_range (a b : nat) : list nat := seq a (b - a).

(** [compact_boundaries[-1]] and [compact_boundaries[-2]] of a list that
    is long enough. *)
Definition last_boundary (bs : list nat) : nat := List.last bs 0.
Definition start_idx (bs : list nat) : nat :=
  if 2 <=? length bs then List.last (removelast bs) 0 else 0.

Section Parser.

(** [str(v)] as the f-string applies it to a role that is not a
    string; on a string it is the identity. *)
Variable py_str : json -> string.

Definition format_value (v : json) : string :=
  match v with
  | JStr s => s
  | _ => py_str v
  end.

(** The body of the third loop on a decoded line: [None] for
    [continue], [Some turn] for [conversation.append(turn)]. *)
Definition conversation_entry (obj : json) : result (option string) :=
  entry_type <- py_get obj "type" (JStr "") ;;
  if negb (is_str entry_type "user" || is_str entry_type "assistant")
  then Ok None
  else
    msg <- py_get obj "message" (JObj []) ;;
    role <- py_get msg "role" entry_type ;;
    skip <- (if is_str role "assistant" then has_tool_use msg else Ok false) ;;
    if skip : bool then Ok None
    else
      text <- extract_text msg ;;
      if negb (truthy (strip text)) then Ok None
      else if is_str role "user" && (len text <? 10)%Z then Ok None
      else
        let max_len := (if is_str role "user" then 2000 else 2000)%Z in
        let text := if (max_len <? len text)%Z
                    then slice_to max_len text ++ truncation_marker
                    else text in
        Ok (Some ("[" ++ format_value role ++ "]: " ++ text)).

(** The third loop over the indices [idxs]. *)
Fixpoint collect_conversation (lines : list line) (idxs : list nat)
  : result (list string) :=
  match idxs with
  | [] => Ok []
  | i :: rest =>
      l <- line_at lines i ;;
      match l with
      | None => collect_conversation lines rest
      | Some obj =>
          e <- conversation_entry obj ;;
          conv <- collect_conversation lines rest ;;
          Ok (match e with Some turn => turn :: conv | None => conv end)
      end
  end.

Definition parse_jsonl (lines : list line) : result parsed :=
  compact_boundaries <- find_boundaries 0 lines ;;
  match compact_boundaries with
  | [] => Ok NoCompaction
  | _ :: _ =>
      let last := last_boundary compact_boundaries in
      compaction_summary <-
        find_summary lines (py_range (last + 1) (Nat.min (last + 5) (length lines))) ;;
      conversation <-
        collect_conversation lines (py_range (start_idx compact_boundaries) last) ;;
      Ok (Parsed compaction_summary conversation)
  end.

End Parser.

(** ** The world of the coordinator *)

(** The files the worker touches, by where they live. *)
Inductive path :=
| BesideLog (transcript_path name : string)
    (* Path(transcript_path).parent / name *)
| InClaudeHome (name : string)
    (* Path.home() / ".claude" / name *)
| InDir (dir name : string).
    (* dir / name *)

#[export] Instance path_eq_dec : EqDecision path.
Proof. solve_decision. Defined.

#[export] Instance path_countable : Countable path.
Proof.
  refine (inj_countable'
    (fun p => match p with
              | BesideLog t n => inl (t, n)
              | InClaudeHome n => inr (inl n)
              | InDir d n => inr (inr (d, n))
              end)
    (fun x => match x with
              | inl (t, n) => BesideLog t n
              | inr (inl n) => InClaudeHome n
              | inr (inr (d, n)) => InDir d n
              end) _).
  intros []; reflexivity.
Defined.

Definition handover_path (transcript_path session_id : string) : path :=
  BesideLog transcript_path ("HANDOVER-" ++ session_id ++ ".md").
Definition error_log (transcript_path session_id : string) : path :=
  BesideLog transcript_path ("HANDOVER-" ++ session_id ++ ".error.log").
Definition ready_marker (session_id : string) : path :=
  InClaudeHome (".handover-ready-" ++ session_id).

(** The dictionary [write_status] dumps into [STATUS_FILE]. *)
Record status := Status {
  phase : string;
  step : Z;
  total : Z;
  session_id : string;
  updated_at : string;
  error : string
}.

(** The two prompts, each standing for its fixed text with the two file
    paths interpolated. *)
Inductive prompt :=
| ExtractPrompt (summary_file transcript_file : path)
| MergePrompt (existing_file fragment_file : path).

(** How [subprocess.run] ends: it returns a completed process, or
    raises [TimeoutExpired], or raises another [Exception] (of type
    [type_name], printed as [msg]). *)
Inductive proc :=
| Completed (returncode : Z) (stdout : string)
| TimeoutExpired
| Failed (type_name msg : string).

(** The effects of a run, in the order they happen. *)
Inductive event :=
| EvWriteStatus (st : status)               (* STATUS_FILE.write_text(json.dumps ..) *)
| EvWriteText (p : path) (content : string) (* p.write_text(content) *)
| EvMkdtemp (dir : string)                  (* tempfile.mkdtemp *)
| EvRmtree (dir : string)                   (* shutil.rmtree *)
| EvRun (p : prompt) (timeout : Z) (r : proc). (* subprocess.run(["claude", ..]) *)

Record world := World {
  logs : gmap string (list line);  (* the interaction logs, by path, decoded *)
  files : gmap path string;        (* the text files *)
  status_file : option status;     (* STATUS_FILE, decoded *)
  dirs : gset string;              (* the scratch directories *)
  clock : nat;                     (* how many times the clock was read *)
  trace : list event               (* the effects so far, oldest first *)
}.

Definition emit (e : event) (w : world) : world :=
  World (logs w) (files w) (status_file w) (dirs w) (clock w) (trace w ++ [e]).

Definition tick (w : world) : world :=
  World (logs w) (files w) (status_file w) (dirs w) (S (clock w)) (trace w).

(** [p.write_text(content)]: creates the file or replaces its content. *)
Definition write_text (p : path) (content : string) (w : world) : world :=
  emit (EvWriteText p content)
    (World (logs w) (<[p := content]> (files w)) (status_file w) (dirs w)
       (clock w) (trace w)).

Definition in_dir (d : string) (p : path) : bool :=
  match p with
  | InDir d' _ => String.eqb d' d
  | _ => false
  end.

(** [shutil.rmtree(d, ignore_errors=True)] *)
Definition rmtree (d : string) (w : world) : world :=
  emit (EvRmtree d)
    (World (logs w) (filter (fun kv => in_dir d kv.1 = false) (files w))
       (status_file w) (dirs w ∖ {[d]}) (clock w) (trace w)).

(** What a call made inside the [try] block of [main] does: it returns a
    value, or raises [TimeoutExpired], or raises another [Exception]. *)
Inductive ctl (A : Type) :=
| Val (a : A)
| Timeout
| Error (type_name msg : string).
Arguments Val {A} a.
Arguments Timeout {A}.
Arguments Error {A} type_name msg.

(** How the process ends: [main] returns, or an exception leaves it. *)
Inductive exit := Returns | Uncaught (e : exn).

Section Worker.

Variable py_str : json -> string.
(** The external generator: what [subprocess.run] does on a prompt and
    a timeout, in a given world. *)
Variable subprocess_run : world -> prompt -> Z -> proc.
(** [datetime.now().isoformat()] at the n-th reading of the clock. *)
Variable isoformat : nat -> string.
(** The directory [tempfile.mkdtemp(prefix="handover_")] creates. *)
Variable mkdtemp : world -> string.

Definition datetime_now (w : world) : world * string :=
  (tick w, isoformat (clock w)).

Definition write_status (phase : string) (step total : Z)
    (session_id error : string) (w : world) : world :=
  let '(w, now) := datetime_now w in
  let st := Status phase step total session_id now error in
  emit (EvWriteStatus st)
    (World (logs w) (files w) (Some st) (dirs w) (clock w) (trace w)).

Definition call_claude (p : prompt) (timeout : Z) (w : world)
  : world * ctl (option string) :=
  let r := subprocess_run w p timeout in
  let w := emit (EvRun p timeout r) w in
  match r with
  | Completed returncode stdout =>
      if (returncode =? 0)%Z && truthy (strip stdout)
      then (w, Val (Some (strip stdout)))
      else (w, Val None)
  | TimeoutExpired => (w, Timeout)
  | Failed type_name msg => (w, Error type_name msg)
  end.

(** The two size caps of [pass1_extract]. *)
Definition cap_transcript (transcript_text : string) : string :=
  if (150000 <? len transcript_text)%Z
  then slice_last 150000 transcript_text
  else transcript_text.

Definition cap_summary (compaction_summary : string) : string :=
  if (20000 <? len compaction_summary)%Z
  then slice_to 20000 compaction_summary ++ truncation_marker
  else compaction_summary.

Definition pass1_extract (compaction_summary : string)
    (conversation : list string) (work_dir : string) (w : world)
  : world * ctl (option string) :=
  let transcript_text := join (String "010" (String "010" "")) conversation in
  let transcript_text := cap_transcript transcript_text in
  let compaction_summary := cap_summary compaction_summary in
  let transcript_file := InDir work_dir "transcript.txt" in
  let summary_file := InDir work_dir "compaction_summary.txt" in
  let w := write_text transcript_file transcript_text w in
  let w := write_text summary_file compaction_summary w in
  call_claude (ExtractPrompt summary_file transcript_file) 180 w.

Definition pass2_merge (existing_handover new_fragment work_dir : string)
    (w : world) : world * ctl (option string) :=
  let existing_file := InDir work_dir "existing_handover.md" in
  let fragment_file := InDir work_dir "new_fragment.md" in
  let w := write_text existing_file existing_handover w in
  let w := write_text fragment_file new_fragment w in
  call_claude (MergePrompt existing_file fragment_file) 120 w.

(** Truthiness of a [str | None]. *)
Definition some_text (o : option string) : option string :=
  match o with
  | Some s => if truthy s then Some s else None
  | None => None
  end.

(** [error_log.write_text(f"{datetime.now().isoformat()}: {what}\n")] *)
Definition log_error (transcript_path session_id what : string)
    (w : world) : world :=
  let '(w, now) := datetime_now w in
  write_text (error_log transcript_path session_id)
    (now ++ ": " ++ what ++ String "010" "") w.

(** The body of the [try] block of [main]. *)
Definition try_block (session_id transcript_path existing_handover
    compaction_summary : string) (conversation : list string)
    (work_dir : string) (w : world) : world * ctl unit :=
  let has_merge := truthy existing_handover in
  let w := write_status "pass1" (if has_merge then 1 else 0)
             (if has_merge then 2 else 0) session_id "" w in
  match pass1_extract compaction_summary conversation work_dir w with
  | (w, Timeout) => (w, Timeout)
  | (w, Error n m) => (w, Error n m)
  | (w, Val r) =>
      match some_text r with
      | None =>
          let w := write_status "error" 0 0 session_id
                     "Pass 1 returned no output" w in
          let w := log_error transcript_path session_id
                     "Pass 1 failed (no output from claude -p)" w in
          (w, Val tt)
      | Some new_fragment =>
          let after_document w :=
            let w := write_status "done" 0 0 session_id "" w in
            let w := write_text (ready_marker session_id) session_id w in
            (w, Val tt) in
          if truthy existing_handover
          then
            let w := write_status "pass2" 2 2 session_id "" w in
            match pass2_merge existing_handover new_fragment work_dir w with
            | (w, Timeout) => (w, Timeout)
            | (w, Error n m) => (w, Error n m)
            | (w, Val r2) =>
                match some_text r2 with
                | Some merged =>
                    after_document
                      (write_text (handover_path transcript_path session_id) merged w)
                | None =>
                    let w := write_text (handover_path transcript_path session_id)
                               new_fragment w in
                    let w := log_error transcript_path session_id
                               "Pass 2 failed, saved Pass 1 output only" w in
                    after_document w
                end
            end
          else
            after_document
              (write_text (handover_path transcript_path session_id) new_fragment w)
      end
  end.

(** The [except] clauses of [main]. *)
Definition handlers (session_id transcript_path : string)
    (r : world * ctl unit) : world :=
  match r with
  | (w, Val _) => w
  | (w, Timeout) =>
      let w := write_status "error" 0 0 session_id "claude -p timed out" w in
      log_error transcript_path session_id "claude -p timed out" w
  | (w, Error type_name msg) =>
      let w := write_status "error" 0 0 session_id msg w in
      log_error transcript_path session_id (type_name ++ ": " ++ msg) w
  end.

(** [Path(tempfile.mkdtemp(prefix="handover_"))] *)
Definition make_work_dir (w : world) : world * string :=
  let work_dir := mkdtemp w in
  (emit (EvMkdtemp work_dir)
     (World (logs w) (files w) (status_file w) (dirs w ∪ {[work_dir]})
        (clock w) (trace w)),
   work_dir).

(** [main], on [sys.argv]. *)
Definition main (argv : list string) (w : world) : world * exit :=
  match argv with
  | _ :: session_id :: transcript_path :: _ =>
      match logs w !! transcript_path with
      | None => (w, Returns)
      | Some lines =>
          let existing_handover :=
            default "" (files w !! handover_path transcript_path session_id) in
          match parse_jsonl py_str lines with
          | Raise e => (w, Uncaught e)
          | Ok NoCompaction => (w, Returns)
          | Ok (Parsed _ []) => (w, Returns)
          | Ok (Parsed compaction_summary conversation) =>
              let '(w, work_dir) := make_work_dir w in
              let w := handlers session_id transcript_path
                         (try_block session_id transcript_path existing_handover
                            compaction_summary conversation work_dir w) in
              (rmtree work_dir w, Returns)
          end
      end
  | _ => (w, Returns)
  end.

End Worker.

(** ** Vocabulary of the properties *)

(** A line the first loop passes without raising: it does not decode,
    or it decodes to an object. *)
Definition is_record (l : line) : bool :=
  match l with
  | None | Some (JObj _) => true
  | Some _ => false
  end.

(** A compaction-boundary record. *)
Definition boundary_record (l : line) : bool :=
  match l with
  | Some (JObj d) =>
      is_str (default JNull (dict_get d "type")) "system"
      && is_str (default JNull (dict_get d "subtype")) "compact_boundary"
  | _ => false
  end.

(** The positions of the compaction-boundary records of a log whose
    first line has index [i]. *)
Fixpoint boundary_positions (i : nat) (lines : list line) : list nat :=
  match lines with
  | [] => []
  | l :: rest =>
      if boundary_record l
      then i :: boundary_positions (S i) rest
      else boundary_positions (S i) rest
  end.

(** The turns of a segment of the log, record by record: what the
    processing range of the parser is compared with. *)
Fixpoint turns_in (py_str : json -> string) (records : list line)
  : result (list string) :=
  match records with
  | [] => Ok []
  | None :: rest => turns_in py_str rest
  | Some obj :: rest =>
      e <- conversation_entry py_str obj ;;
      conv <- turns_in py_str rest ;;
      Ok (match e with Some turn => turn :: conv | None => conv end)
  end.

(** The lookahead window of the second loop behind the boundary [last]. *)
Definition lookahead (lines : list line) (last : nat) : list nat :=
  py_range (last + 1) (Nat.min (last + 5) (length lines)).

(** The effects a run added to the trace. *)
Definition new_events (w w' : world) : list event :=
  drop (length (trace w)) (trace w').

(** Pass 1 returned the fragment [fragment]: the extraction call exited
    with code 0 and its output, stripped, is [fragment] and not empty. *)
Definition pass1_returned (evs : list event) (fragment : string) : Prop :=
  exists sf tf out,
    In (EvRun (ExtractPrompt sf tf) 180 (Completed 0 out)) evs
    /\ strip out = fragment /\ fragment <> "".

(** Pass 2 was invoked and returned no output. *)
Definition pass2_no_output (evs : list event) : Prop :=
  exists ef ff rc out,
    In (EvRun (MergePrompt ef ff) 120 (Completed rc out)) evs
    /\ (rc <> 0%Z \/ strip out = "").

(** The merge call was made. *)
Definition pass2_invoked (evs : list event) : Prop :=
  exists ef ff t r, In (EvRun (MergePrompt ef ff) t r) evs.

(** The event writes the readiness marker of the session. *)
Definition is_marker_write (session_id : string) (e : event) : bool :=
  match e with
  | EvWriteText (InClaudeHome name) _ =>
      String.eqb name (".handover-ready-" ++ session_id)
  | _ => false
  end.

(** The event sets the phase of the status to [error]. *)
Definition is_error_status (e : event) : bool :=
  match e with
  | EvWriteStatus st => String.eqb (phase st) "error"
  | _ => false
  end.

(** An entry of the error log: a timestamp, a description, a newline. *)
Definition log_entry (now what : string) : string :=
  now ++ ": " ++ what ++ String "010" "".

(** The text of a turn as the third loop appends it: cut to its first
    2000 characters, with the marker, when it is longer. *)
Definition truncated (text : string) : string :=
  if (2000 <? len text)%Z then slice_to 2000 text ++ truncation_marker else text.

(** ** Sample data *)

Definition text_record (ty role text : string) : line :=
  Some (JObj [("type", JStr ty);
              ("message", JObj [("role", JStr role); ("content", JStr text)])]).

Definition boundary_line : line :=
  Some (JObj [("type", JStr "system"); ("subtype", JStr "compact_boundary")]).

(** [n] times the character [c]. *)
Fixpoint repeat_char (c : ascii) (n : nat) : string :=
  match n with
  | O => EmptyString
  | S n' => String c (repeat_char c n')
  end.

Definition no_str : json -> string := fun _ => "".

(** A log with one boundary and a log with two. *)
Definition one_boundary_log : list line :=
  [text_record "user" "user" "please keep the old API";
   None;
   text_record "assistant" "assistant" "ok";
   boundary_line;
   text_record "user" "user"
     "This session is being continued from a previous conversation."].

Definition two_boundary_log : list line :=
  [text_record "user" "user" "an earlier epoch of the session";
   boundary_line;
   text_record "user" "user" "rename the module first";
   text_record "assistant" "assistant" "renamed";
   boundary_line].




(** A generator that answers every extraction call with [extract] and
    every merge call with [merge]. *)
Definition scripted (extract merge : proc) : world -> prompt -> Z -> proc :=
  fun _ p _ =>
    match p with
    | ExtractPrompt _ _ => extract
    | MergePrompt _ _ => merge
    end.

Definition sample_isoformat : nat -> string :=
  fun n => "2025-01-01T00:00:0" ++ String (ascii_of_nat (48 + n)) "".

Definition sample_mkdtemp : world -> string := fun _ => "/tmp/handover_1".

Definition sample_argv : list string :=
  ["handover_worker.py"; "s1"; "/p/s1.jsonl"].

(** A world that holds the log [lines] of session [s1] and the text
    files [fs]. *)
Definition sample_world (lines : list line) (fs : list (path * string)) : world :=
  World {["/p/s1.jsonl" := lines]} (list_to_map fs) None ∅ 0 [].

(** A run of [main] for the session [s1] against the generator [run]. *)
Definition sample_main (run : world -> prompt -> Z -> proc) (w : world)
  : world * exit :=
  main no_str run sample_isoformat sample_mkdtemp sample_argv w.

(** A log without a boundary. *)
Definition quiet_log : list line :=
  [text_record "user" "user" "hello there, how are you"; None].

(** Worlds of the session [s1]: without a prior document, with one, with
    an empty one, and with an error log of an earlier run. *)
Definition fresh_world : world := sample_world one_boundary_log [].

Definition merged_world : world :=
  sample_world one_boundary_log
    [(handover_path "/p/s1.jsonl" "s1", "# Handover of the first epoch")].

Definition empty_document_world : world :=
  sample_world one_boundary_log [(handover_path "/p/s1.jsonl" "s1", "")].

Definition old_entry : string :=
  "2024-12-31T23:59:59: claude -p timed out" ++ String "010" "".

Definition logged_world : world :=
  sample_world one_boundary_log [(error_log "/p/s1.jsonl" "s1", old_entry)].

(** ** Vocabulary of the further properties *)

(** A block that [extract_text] can join: not a text block, or a text
    block whose text is a string (or is missing). *)
Definition joinable_block (block : json) : bool :=
  if block_has_type "text" block
  then match block with
       | JObj d =>
           match default (JStr "") (dict_get d "text") with
           | JStr _ => true
           | _ => false
           end
       | _ => true
       end
  else true.

(** A message the parser reads without raising: an object whose
    content, when it is a list, holds joinable blocks only. *)
Definition readable_message (msg : json) : bool :=
  match msg with
  | JObj d =>
      match default (JStr "") (dict_get d "content") with
      | JArr blocks => forallb joinable_block blocks
      | _ => true
      end
  | _ => false
  end.

(** A line the parser reads without raising: it does not decode, or it
    decodes to an object whose message, when it has one, is readable. *)
Definition readable_line (l : line) : bool :=
  match l with
  | None => true
  | Some (JObj d) => readable_message (default (JObj []) (dict_get d "message"))
  | Some _ => false
  end.

(** ** The inject hook (hooks/handover_inject.py) *)

(** [p.unlink(missing_ok=True)] *)
Definition unlink (p : path) (w : world) : world :=
  World (logs w) (delete p (files w)) (status_file w) (dirs w) (clock w) (trace w).

Section Inject.

(** [str(v)] on a value that is not a string. *)
Variable py_str : json -> string.
(** Truthiness of a number, by its literal: whether it is not zero. *)
Variable num_truthy : string -> bool.
(** [str(p)] on a path. *)
Variable path_str : path -> string.

(** Truthiness of a decoded JSON value. *)
Definition json_truthy (v : json) : bool :=
  match v with
  | JNull => false
  | JBool b => b
  | JNum literal => num_truthy literal
  | JStr s => truthy s
  | JArr [] => false
  | JArr (_ :: _) => true
  | JObj [] => false
  | JObj (_ :: _) => true
  end.

(** [main] of the inject hook, on the decoded standard input ([None]
    when [json.loads] raises): the world afterwards, the lines printed,
    and how the process ends.  The trace of the world records the
    effects of the worker only. *)
Definition inject_main (data : option json) (w : world)
  : world * list string * exit :=
  match data with
  | None => (w, [], Returns)
  | Some data =>
      match py_get data "session_id" (JStr "") with
      | Raise e => (w, [], Uncaught e)
      | Ok session_id =>
          match py_get data "transcript_path" (JStr "") with
          | Raise e => (w, [], Uncaught e)
          | Ok transcript_path =>
              if negb (json_truthy session_id) || negb (json_truthy transcript_path)
              then (w, [], Returns)
              else
                let ready_marker :=
                  InClaudeHome (".handover-ready-" ++ format_value py_str session_id) in
                match files w !! ready_marker with
                | None => (w, [], Returns)
                | Some _ =>
                    match transcript_path with
                    | JStr t =>
                        let handover_path :=
                          BesideLog t
                            ("HANDOVER-" ++ format_value py_str session_id ++ ".md") in
                        match files w !! handover_path with
                        | None => (unlink ready_marker w, [], Returns)
                        | Some _ =>
                            (unlink ready_marker w,
                             ["[HANDOVER] Read this file: " ++ path_str handover_path],
                             Returns)
                        end
                    | _ => (w, [], Uncaught TypeError)
                    end
                end
          end
      end
  end.

End Inject.

(** ** Vocabulary of the runs *)

(** Pass 1 returned no output: a non-zero exit code or blank output. *)
Definition pass1_no_output (evs : list event) : Prop :=
  exists sf tf rc out,
    In (EvRun (ExtractPrompt sf tf) 180 (Completed rc out)) evs
    /\ (rc <> 0%Z \/ strip out = "").

(** Pass 2 returned the document [merged]. *)
Definition pass2_returned (evs : list event) (merged : string) : Prop :=
  exists ef ff out,
    In (EvRun (MergePrompt ef ff) 120 (Completed 0 out)) evs
    /\ strip out = merged /\ merged <> "".

(** A call of the generator timed out. *)
Definition call_timed_out (evs : list event) : Prop :=
  exists p t, In (EvRun p t TimeoutExpired) evs.

(** A call of the generator raised the exception [type_name: msg]. *)
Definition call_raised (evs : list event) (type_name msg : string) : Prop :=
  exists p t, In (EvRun p t (Failed type_name msg)) evs.

(** The calls of the generator in a trace, in order. *)
Definition generator_calls (evs : list event) : list (prompt * Z * proc) :=
  omap (fun e => match e with
                 | EvRun p t r => Some (p, t, r)
                 | _ => None
                 end) evs.

(** ** More sample data *)

(** A log with four lines behind its boundary. *)
Definition settled_log : list line :=
  one_boundary_log
  ++ [text_record "assistant" "assistant" "continuing";
      None;
      text_record "user" "user" "go on with the tests"].

(** A log of lines that do not decode, records without a message,
    another record type and an unknown block type. *)
Definition mixed_log : list line :=
  [None;
   Some (JObj [("type", JStr "summary"); ("summary", JStr "Session title")]);
   Some (JObj [("type", JStr "user")]);
   Some (JObj [("type", JStr "assistant");
               ("message",
                JObj [("role", JStr "assistant");
                      ("content",
                       JArr [JObj [("type", JStr "thinking"); ("thinking", JStr "hm")];
                             JStr "stray";
                             JObj [("type", JStr "text")]])])]);
   boundary_line;
   Some (JObj [("type", JStr "file-history-snapshot"); ("message", JObj [])])].

(** The input of the inject hook for the session [s1]. *)
Definition sample_hook_input : list (string * json) :=
  [("session_id", JStr "s1");
   ("transcript_path", JStr "/p/s1.jsonl");
   ("hook_event_name", JStr "UserPromptSubmit")].

Definition sample_path_str : path -> string :=
  fun p =>
    match p with
    | BesideLog _ name => "/p/" ++ name
    | InClaudeHome name => "~/.claude/" ++ name
    | InDir dir name => dir ++ "/" ++ name
    end.

Definition sample_inject (data : option json) (w : world)
  : world * list string * exit :=
  inject_main no_str (fun _ => true) sample_path_str data w.

(** A world in which the worker has left a document and its marker. *)
Definition ready_world : world :=
  sample_world one_boundary_log
    [(ready_marker "s1", "s1");
     (handover_path "/p/s1.jsonl" "s1", "# Handover")].

(** ** Strings *)

Local Open Scope list_scope.

Lemma append_empty (t : string) : "" +:+ t = t.
Proof. reflexivity. Qed.

Lemma append_String c (s t : string) : String c s +:+ t = String c (s +:+ t).
Proof. reflexivity. Qed.

Lemma len_append s t : len (s +:+ t) = (len s + len t)%Z.
Proof.
  unfold len. induction s as [|c s IH].
  - rewrite append_empty. simpl. lia.
  - rewrite append_String. simpl String.length. lia.
Qed.

Lemma str_take_drop n s : str_take n s +:+ str_drop n s = s.
Proof.
  revert s. induction n as [|n IH]; intros [|c s]; simpl; try reflexivity.
  rewrite append_String. now rewrite IH.
Qed.

Lemma str_take_length n s : String.length (str_take n s) = Nat.min n (String.length s).
Proof.
  revert s. induction n as [|n IH]; intros [|c s]; simpl; try reflexivity.
  now rewrite IH.
Qed.

Lemma str_drop_length n s : String.length (str_drop n s) = String.length s - n.
Proof.
  revert s. induction n as [|n IH]; intros [|c s]; simpl; try reflexivity.
  apply IH.
Qed.

Lemma len_slice_to n s : (0 <= n <= len s)%Z -> len (slice_to n s) = n.
Proof.
  intros H. unfold len, slice_to in *. rewrite str_take_length. lia.
Qed.

Lemma slice_to_prefix n s : exists rest, s = slice_to n s +:+ rest.
Proof.
  exists (str_drop (Z.to_nat n) s). unfold slice_to. now rewrite str_take_drop.
Qed.

Lemma len_slice_last n s : (0 <= n <= len s)%Z -> len (slice_last n s) = n.
Proof.
  intros H. unfold slice_last, len in *. rewrite str_drop_length. lia.
Qed.

Lemma slice_last_suffix n s : exists front, s = front +:+ slice_last n s.
Proof.
  exists (str_take (Z.to_nat (len s - n)) s). unfold slice_last.
  now rewrite str_take_drop.
Qed.

Lemma truthy_false s : truthy s = false <-> s = "".
Proof. destruct s; simpl; split; congruence. Qed.

Lemma truthy_true s : truthy s = true <-> s <> "".
Proof. destruct s; simpl; split; congruence. Qed.

Lemma len_truncation_marker : len truncation_marker = 18%Z.
Proof. reflexivity. Qed.

(** ** The scan for compaction boundaries *)

Lemma rbind_ok {A B} (r : result A) (k : A -> result B) b :
  rbind r k = Ok b -> exists a, r = Ok a /\ k a = Ok b.
Proof. destruct r as [a|e]; simpl; [eauto | discriminate]. Qed.

Lemma is_compact_boundary_record obj :
  is_record (Some obj) = true ->
  is_compact_boundary obj = Ok (boundary_record (Some obj)).
Proof.
  destruct obj; simpl; try discriminate. intros _.
  unfold is_compact_boundary. simpl.
  destruct (is_str _ "system"); reflexivity.
Qed.

Lemma is_compact_boundary_ok obj b :
  is_compact_boundary obj = Ok b ->
  is_record (Some obj) = true /\ b = boundary_record (Some obj).
Proof.
  intros H. destruct obj; try discriminate. split; [reflexivity|].
  rewrite is_compact_boundary_record in H by reflexivity. congruence.
Qed.

(** The scan from index [i] finds the boundaries of the scan from 0,
    moved by [i]. *)
Lemma find_boundaries_shift i lines :
  find_boundaries i lines =
  (bs <- find_boundaries 0 lines ;; Ok ((fun b => i + b) <$> bs)).
Proof.
  revert i. induction lines as [|[obj|] rest IH]; intros i; simpl.
  - reflexivity.
  - destruct (is_compact_boundary obj) as [b|e]; simpl; [|reflexivity].
    rewrite (IH (S i)), (IH 1).
    destruct (find_boundaries 0 rest) as [bs|e]; simpl; [|reflexivity].
    destruct b; simpl; rewrite <- list_fmap_compose; f_equal;
      [f_equal; [lia|]|]; apply list_fmap_ext; intros; simpl; lia.
  - rewrite (IH (S i)), (IH 1).
    destruct (find_boundaries 0 rest) as [bs|e]; simpl; [|reflexivity].
    rewrite <- list_fmap_compose. f_equal.
    apply list_fmap_ext; intros; simpl; lia.
Qed.

Lemma find_boundaries_app i pre rest :
  find_boundaries i (pre ++ rest) =
  (bs1 <- find_boundaries i pre ;;
   bs2 <- find_boundaries (i + length pre) rest ;;
   Ok (bs1 ++ bs2)).
Proof.
  revert i. induction pre as [|[obj|] pre IH]; intros i; simpl.
  - replace (i + 0) with i by lia.
    destruct (find_boundaries i rest); reflexivity.
  - destruct (is_compact_boundary obj) as [b|e]; simpl; [|reflexivity].
    rewrite IH. replace (S i + length pre) with (i + S (length pre)) by lia.
    destruct (find_boundaries (S i) pre); simpl; [|reflexivity].
    destruct (find_boundaries _ rest); simpl; [|reflexivity].
    destruct b; reflexivity.
  - rewrite IH. replace (S i + length pre) with (i + S (length pre)) by lia.
    reflexivity.
Qed.

Lemma find_boundaries_records i pre :
  forallb is_record pre = true -> exists bs, find_boundaries i pre = Ok bs.
Proof.
  revert i. induction pre as [|[obj|] pre IH]; intros i H; simpl in *.
  - eauto.
  - apply andb_prop in H as [Hr H].
    rewrite (is_compact_boundary_record _ Hr). simpl.
    destruct (IH (S i) H) as [bs ->]. simpl. eauto.
  - apply IH, H.
Qed.

(** On a log of records the scan returns the positions of the boundary
    records. *)
Lemma find_boundaries_positions i lines :
  forallb is_record lines = true ->
  find_boundaries i lines = Ok (boundary_positions i lines).
Proof.
  revert i. induction lines as [|[obj|] rest IH]; intros i H;
    cbn [find_boundaries forallb boundary_positions] in *.
  - reflexivity.
  - apply andb_prop in H as [Hr H].
    rewrite (is_compact_boundary_record _ Hr), (IH _ H). reflexivity.
  - apply IH, H.
Qed.

(** A boundary found by the scan is the index of a line of the log. *)
Lemma find_boundaries_lt i lines bs :
  find_boundaries i lines = Ok bs ->
  Forall (fun b => i <= b < i + length lines) bs.
Proof.
  revert i bs. induction lines as [|[obj|] rest IH]; intros i bs H; simpl in *.
  - injection H as <-. constructor.
  - apply rbind_ok in H as (b & _ & H). apply rbind_ok in H as (bs' & H' & H).
    injection H as <-. apply IH in H'.
    assert (Forall (fun b => i <= b < i + S (length rest)) bs')
      by (eapply Forall_impl; [|exact H']; simpl; intros; lia).
    destruct b; [constructor; [lia|]|]; assumption.
  - apply IH in H. eapply Forall_impl; [|exact H]. simpl; intros; lia.
Qed.

(** The scan finds nothing exactly on the logs of records that hold no
    boundary record. *)
Lemma find_boundaries_none i lines :
  find_boundaries i lines = Ok [] <->
  forallb is_record lines = true /\ existsb boundary_record lines = false.
Proof.
  revert i. induction lines as [|[obj|] rest IH]; intros i;
    cbn [find_boundaries forallb existsb].
  - tauto.
  - split.
    + intros H. apply rbind_ok in H as (b & Hb & H).
      apply rbind_ok in H as (bs & Hbs & H).
      apply is_compact_boundary_ok in Hb as [Hr ->].
      destruct (boundary_record (Some obj)); [discriminate|].
      injection H as ->. apply IH in Hbs as [-> ->]. now rewrite Hr.
    + intros [H1 H2]. apply andb_prop in H1 as [Hr H1].
      apply orb_false_elim in H2 as [Hb H2].
      rewrite (is_compact_boundary_record _ Hr), Hb. simpl.
      rewrite (proj2 (IH (S i)) (conj H1 H2)). reflexivity.
  - apply IH.
Qed.

(** ** Index loops and segments *)

Lemma line_at_app pre rest i :
  line_at (pre ++ rest) (length pre + i) = line_at rest i.
Proof.
  unfold line_at. rewrite lookup_app_r by lia.
  replace (length pre + i - length pre) with i by lia. reflexivity.
Qed.

Lemma find_summary_app pre rest idxs :
  find_summary (pre ++ rest) ((fun i => length pre + i) <$> idxs) =
  find_summary rest idxs.
Proof.
  induction idxs as [|i idxs IH]; [reflexivity|].
  rewrite fmap_cons. cbn [find_summary collect_conversation].
  rewrite line_at_app, IH. reflexivity.
Qed.

Lemma collect_conversation_app py_str pre rest idxs :
  collect_conversation py_str (pre ++ rest) ((fun i => length pre + i) <$> idxs) =
  collect_conversation py_str rest idxs.
Proof.
  induction idxs as [|i idxs IH]; [reflexivity|].
  rewrite fmap_cons. cbn [find_summary collect_conversation].
  rewrite line_at_app, IH. reflexivity.
Qed.

Lemma py_range_shift n a b :
  py_range (n + a) (n + b) = (fun i => n + i) <$> py_range a b.
Proof.
  unfold py_range. rewrite fmap_add_seq. f_equal. lia.
Qed.

(** The loop over [seq a n] reads the [n] lines from index [a] on. *)
Lemma collect_conversation_seq py_str lines n a :
  a + n <= length lines ->
  collect_conversation py_str lines (seq a n) =
  turns_in py_str (take n (drop a lines)).
Proof.
  revert a. induction n as [|n IH]; intros a Hlen; simpl; [reflexivity|].
  destruct (lookup_lt_is_Some_2 lines a) as [l Hl]; [lia|].
  unfold line_at. rewrite Hl. simpl.
  rewrite (drop_S _ _ _ Hl). simpl.
  rewrite IH by lia. destruct l; reflexivity.
Qed.

Lemma collect_conversation_range py_str lines a b :
  b <= length lines ->
  collect_conversation py_str lines (py_range a b) =
  turns_in py_str (drop a (take b lines)).
Proof.
  intros Hb. unfold py_range.
  destruct (decide (a <= b)) as [Hab|Hab].
  - rewrite collect_conversation_seq by lia.
    rewrite take_drop_commute. do 3 f_equal. lia.
  - replace (b - a) with 0 by lia. simpl.
    rewrite drop_ge; [reflexivity|]. rewrite length_take. lia.
Qed.

(** ** The processing range of the parser *)

Lemma last_boundary_snoc prev last : last_boundary (prev ++ [last]) = last.
Proof. unfold last_boundary. apply last_last. Qed.

Lemma start_idx_one last : start_idx [last] = 0.
Proof. reflexivity. Qed.

Lemma start_idx_snoc prev b2 last : start_idx ((prev ++ [b2]) ++ [last]) = b2.
Proof.
  unfold start_idx. rewrite removelast_last, last_last.
  destruct (2 <=? _) eqn:E; [reflexivity|].
  apply Nat.leb_gt in E. rewrite !length_app in E. simpl in E. lia.
Qed.

(** With its boundaries known, [parse_jsonl] is its second and third
    loop. *)
Lemma parse_jsonl_boundaries py_str lines prev last :
  find_boundaries 0 lines = Ok (prev ++ [last]) ->
  parse_jsonl py_str lines =
  (summary <- find_summary lines (lookahead lines last) ;;
   conv <- collect_conversation py_str lines
             (py_range (start_idx (prev ++ [last])) last) ;;
   Ok (Parsed summary conv)).
Proof.
  intros H. unfold parse_jsonl. rewrite H. simpl.
  rewrite last_boundary_snoc.
  destruct (prev ++ [last]) as [|b bs] eqn:E; [|reflexivity].
  now destruct prev.
Qed.

(** Lines of records put in front of a log with at least two boundaries
    do not change what the parser returns. *)
Lemma parse_jsonl_prepend py_str pre lines prev b2 last :
  forallb is_record pre = true ->
  find_boundaries 0 lines = Ok ((prev ++ [b2]) ++ [last]) ->
  parse_jsonl py_str (pre ++ lines) = parse_jsonl py_str lines.
Proof.
  intros Hpre H.
  destruct (find_boundaries_records 0 pre Hpre) as [bp Hbp].
  assert (H' : find_boundaries 0 (pre ++ lines) =
               Ok (((bp ++ ((fun b => length pre + b) <$> prev))
                    ++ [length pre + b2]) ++ [length pre + last])).
  { rewrite find_boundaries_app, Hbp. simpl.
    rewrite find_boundaries_shift, H. simpl.
    rewrite !fmap_app. simpl. now rewrite <- !app_assoc. }
  rewrite (parse_jsonl_boundaries _ _ _ _ H'), (parse_jsonl_boundaries _ _ _ _ H).
  rewrite !start_idx_snoc. unfold lookahead.
  rewrite length_app.
  replace (length pre + last + 1) with (length pre + (last + 1)) by lia.
  replace (Nat.min (length pre + last + 5) (length pre + length lines))
    with (length pre + Nat.min (last + 5) (length lines)) by lia.
  rewrite !py_range_shift, find_summary_app, collect_conversation_app.
  reflexivity.
Qed.

(** C1. For a log of records whose compaction-boundary records sit at
    the positions [prev ++ [last]]: with [last] as the only boundary,
    the turns are those of the lines [0 .. last) of the log; with a
    second-to-last boundary [b2], they are those of the lines
    [b2 .. last); and with two boundaries or more, whatever lines of
    records are put in front of the log, the parser returns the same
    summary and the same turns. *)
Theorem parse_jsonl_processing_range
    (py_str : json -> string) (lines : list line) (prev : list nat) (last : nat) :
  forallb is_record lines = true ->
  boundary_positions 0 lines = prev ++ [last] ->
  (prev = [] ->
   parse_jsonl py_str lines =
   (summary <- find_summary lines (lookahead lines last) ;;
    conv <- turns_in py_str (take last lines) ;;
    Ok (Parsed summary conv)))
  /\ (forall prev' b2, prev = (prev' ++ [b2]) ->
      parse_jsonl py_str lines =
      (summary <- find_summary lines (lookahead lines last) ;;
       conv <- turns_in py_str (drop b2 (take last lines)) ;;
       Ok (Parsed summary conv)))
  /\ (prev <> [] ->
      forall pre pre',
        forallb is_record pre = true -> forallb is_record pre' = true ->
        parse_jsonl py_str (pre ++ lines) = parse_jsonl py_str (pre' ++ lines)).
Proof.
  intros Hrec Hpos.
  assert (H : find_boundaries 0 lines = Ok (prev ++ [last]))
    by (rewrite find_boundaries_positions by exact Hrec; now rewrite Hpos).
  clear Hrec Hpos.
  assert (Hlast : last <= length lines).
  { apply find_boundaries_lt in H. rewrite Forall_app in H.
    destruct H as [_ H]. inversion H; subst. lia. }
  rewrite (parse_jsonl_boundaries py_str _ _ _ H).
  split; [|split].
  - intros ->. simpl app. rewrite start_idx_one.
    rewrite collect_conversation_range by exact Hlast. reflexivity.
  - intros prev' b2 ->. rewrite start_idx_snoc.
    rewrite collect_conversation_range by exact Hlast. reflexivity.
  - intros Hne pre pre' Hpre Hpre'.
    destruct (exists_last Hne) as (prev' & b2 & ->).
    rewrite (parse_jsonl_prepend py_str pre _ _ _ _ Hpre H).
    rewrite (parse_jsonl_prepend py_str pre' _ _ _ _ Hpre' H).
    reflexivity.
Qed.

Lemma parse_jsonl_processing_range_witness :
  parse_jsonl no_str one_boundary_log =
    Ok (Parsed "This session is being continued from a previous conversation."
          ["[user]: please keep the old API"; "[assistant]: ok"])
  /\ parse_jsonl no_str two_boundary_log =
       Ok (Parsed "" ["[user]: rename the module first"; "[assistant]: renamed"])
  /\ parse_jsonl no_str ([None; boundary_line] ++ two_boundary_log) =
     parse_jsonl no_str ([text_record "user" "user" "something else entirely"]
                         ++ two_boundary_log).
Proof.
  destruct (parse_jsonl_processing_range no_str one_boundary_log [] 3
              eq_refl eq_refl) as (H1 & _ & _).
  destruct (parse_jsonl_processing_range no_str two_boundary_log [1] 4
              eq_refl eq_refl) as (_ & H2 & H3).
  split; [|split].
  - rewrite (H1 eq_refl). reflexivity.
  - rewrite (H2 [] 1 eq_refl). reflexivity.
  - apply H3; [discriminate | reflexivity | reflexivity].
Defined.

(** ** Turns *)

Lemma is_str_eq v s : is_str v s = true -> v = JStr s.
Proof.
  destruct v; simpl; try discriminate.
  intros H. apply String.eqb_eq in H. now subst.
Qed.








(** C5 (as amended). A record of type user or assistant whose role is
    [user] and whose text is not blank yields no turn when the text, not
    trimmed, has fewer than 10 characters, and yields the turn
    [[user]: text], cut by [truncated], when it has 10 or more. *)
Theorem user_turn_length_threshold
    (py_str : json -> string) (obj ty msg role : json) (text : string) :
  py_get obj "type" (JStr "") = Ok ty ->
  is_str ty "user" || is_str ty "assistant" = true ->
  py_get obj "message" (JObj []) = Ok msg ->
  py_get msg "role" ty = Ok role ->
  is_str role "user" = true ->
  extract_text msg = Ok text ->
  strip text <> "" ->
  ((len text < 10)%Z -> conversation_entry py_str obj = Ok None)
  /\ ((10 <= len text)%Z ->
      conversation_entry py_str obj = Ok (Some ("[user]: " +:+ truncated text))).
Proof.
  intros Hty Hkind Hmsg Hrole Huser Htext Hblank.
  unfold conversation_entry. rewrite Hty. simpl. rewrite Hkind. simpl.
  rewrite Hmsg. simpl. rewrite Hrole. simpl.
  apply is_str_eq in Huser. subst role. simpl.
  rewrite Htext. simpl.
  apply truthy_true in Hblank. rewrite Hblank. simpl.
  split; intros Hlen.
  - destruct (Z.ltb_spec (len text) 10); [reflexivity | lia].
  - destruct (Z.ltb_spec (len text) 10); [lia | reflexivity].
Qed.

Lemma user_turn_length_threshold_witness :
  conversation_entry no_str
    (JObj [("type", JStr "user");
           ("message", JObj [("role", JStr "user"); ("content", JStr " 12345678 ")])])
  = Ok (Some ("[user]: " +:+ truncated " 12345678 ")).
Proof.
  refine (proj2 (user_turn_length_threshold no_str _ (JStr "user")
                   (JObj [("role", JStr "user"); ("content", JStr " 12345678 ")])
                   (JStr "user") " 12345678 " _ _ _ _ _ _ _) _);
    first [reflexivity | vm_compute; discriminate].
Defined.

(** C5, as stated, fails: a user text of 11 characters whose trimmed
    length is 5 is not blank, is shorter than 10 once trimmed, and is
    included all the same. *)
Lemma short_trimmed_user_turn_included :
  strip "   hello   " <> ""
  /\ (len (strip "   hello   ") < 10)%Z
  /\ conversation_entry no_str
       (JObj [("type", JStr "user");
              ("message", JObj [("role", JStr "user");
                                ("content", JStr "   hello   ")])])
     = Ok (Some "[user]:    hello   ").
Proof.
  split; [vm_compute; discriminate|].
  split; [vm_compute; reflexivity|].
  vm_compute. reflexivity.
Qed.

(** ** The size caps of Pass 1 *)

Lemma cap_transcript_short t : (len t <= 150000)%Z -> cap_transcript t = t.
Proof.
  intros H. unfold cap_transcript.
  destruct (Z.ltb_spec 150000 (len t)); [lia | reflexivity].
Qed.

Lemma cap_transcript_long t :
  (150000 < len t)%Z -> cap_transcript t = slice_last 150000 t.
Proof.
  intros H. unfold cap_transcript.
  destruct (Z.ltb_spec 150000 (len t)); [reflexivity | lia].
Qed.

Lemma cap_summary_short s : (len s <= 20000)%Z -> cap_summary s = s.
Proof.
  intros H. unfold cap_summary.
  destruct (Z.ltb_spec 20000 (len s)); [lia | reflexivity].
Qed.

Lemma cap_summary_long s :
  (20000 < len s)%Z -> cap_summary s = slice_to 20000 s +:+ truncation_marker.
Proof.
  intros H. unfold cap_summary.
  destruct (Z.ltb_spec 20000 (len s)); [reflexivity | lia].
Qed.

Lemma new_events_app w w' evs :
  trace w' = trace w ++ evs -> new_events w w' = evs.
Proof. intros H. unfold new_events. rewrite H. apply drop_app_length. Qed.

(** What [pass1_extract] does, in order: it writes the capped
    transcript, writes the capped summary, then calls the generator. *)
Lemma pass1_extract_trace run summary conversation work_dir w :
  exists r,
    trace (pass1_extract run summary conversation work_dir w).1 =
    trace w ++
      [EvWriteText (InDir work_dir "transcript.txt")
         (cap_transcript (join (String "010" (String "010" "")) conversation));
       EvWriteText (InDir work_dir "compaction_summary.txt") (cap_summary summary);
       EvRun (ExtractPrompt (InDir work_dir "compaction_summary.txt")
                (InDir work_dir "transcript.txt")) 180 r].
Proof.
  unfold pass1_extract, call_claude.
  match goal with |- context [run ?w' ?p ?t] => exists (run w' p t);
    destruct (run w' p t) as [rc out| |n m] end;
    [destruct (_ && _)|..]; simpl; rewrite <- !app_assoc; reflexivity.
Qed.

(** C7 (as amended). Pass 1 writes the transcript and the summary for
    the generator before it calls it.  The joined transcript is written
    whole when it has at most 150,000 characters and cut to its last
    150,000 otherwise.  The summary is written whole when it has at most
    20,000 characters; otherwise its first 20,000 characters are written
    followed by the truncation marker, 20,018 characters in all. *)
Theorem pass1_size_caps
    (run : world -> prompt -> Z -> proc) (summary : string)
    (conversation : list string) (work_dir : string) (w : world) :
  let transcript := join (String "010" (String "010" "")) conversation in
  exists T S r,
    new_events w (pass1_extract run summary conversation work_dir w).1 =
      [EvWriteText (InDir work_dir "transcript.txt") T;
       EvWriteText (InDir work_dir "compaction_summary.txt") S;
       EvRun (ExtractPrompt (InDir work_dir "compaction_summary.txt")
                (InDir work_dir "transcript.txt")) 180 r]
    /\ ((len transcript <= 150000)%Z -> T = transcript)
    /\ ((150000 < len transcript)%Z ->
        len T = 150000%Z /\ exists front, transcript = front +:+ T)
    /\ ((len summary <= 20000)%Z -> S = summary)
    /\ ((20000 < len summary)%Z ->
        S = slice_to 20000 summary +:+ truncation_marker
        /\ len (slice_to 20000 summary) = 20000%Z
        /\ (exists rest, summary = slice_to 20000 summary +:+ rest)
        /\ len S = 20018%Z).
Proof.
  intros transcript.
  destruct (pass1_extract_trace run summary conversation work_dir w) as [r Hr].
  exists (cap_transcript transcript), (cap_summary summary), r.
  split; [apply new_events_app, Hr|].
  split; [apply cap_transcript_short|].
  split.
  { intros H. rewrite (cap_transcript_long _ H). split.
    - apply len_slice_last. lia.
    - apply slice_last_suffix. }
  split; [apply cap_summary_short|].
  intros H. rewrite (cap_summary_long _ H).
  assert (Hlen : len (slice_to 20000 summary) = 20000%Z)
    by (apply len_slice_to; lia).
  repeat split.
  - exact Hlen.
  - apply slice_to_prefix.
  - rewrite len_append, Hlen, len_truncation_marker. reflexivity.
Qed.

Lemma pass1_extract_files run summary conversation work_dir w :
  files (pass1_extract run summary conversation work_dir w).1 =
  <[InDir work_dir "compaction_summary.txt" := cap_summary summary]>
    (<[InDir work_dir "transcript.txt" :=
         cap_transcript (join (String "010" (String "010" "")) conversation)]>
       (files w)).
Proof.
  unfold pass1_extract, call_claude.
  match goal with |- context [run ?w' ?p ?t] =>
    destruct (run w' p t) as [rc out| |n m] end;
    [destruct (_ && _)|..]; reflexivity.
Qed.

Lemma len_repeat_char c n : len (repeat_char c n) = Z.of_nat n.
Proof.
  unfold len. f_equal. induction n as [|n IH]; simpl; [reflexivity|].
  now rewrite IH.
Qed.

(** C7, as stated, fails: of a summary of 20,001 characters Pass 1
    hands 20,018 characters to the generator, more than 20,000. *)
Lemma capped_summary_longer_than_20000 :
  exists S,
    files (pass1_extract (scripted (Completed 0 "fragment") TimeoutExpired)
             (repeat_char "s" (Z.to_nat 20001)) ["[user]: keep the old API"]
             "/tmp/handover_1" (sample_world [] [])).1
      !! InDir "/tmp/handover_1" "compaction_summary.txt" = Some S
    /\ len S = 20018%Z /\ ~ (len S <= 20000)%Z.
Proof.
  exists (cap_summary (repeat_char "s" (Z.to_nat 20001))).
  split; [rewrite pass1_extract_files; apply lookup_insert_eq|].
  assert (Hs : len (repeat_char "s" (Z.to_nat 20001)) = 20001%Z)
    by (rewrite len_repeat_char; lia).
  rewrite cap_summary_long by lia.
  rewrite len_append, len_slice_to, len_truncation_marker by lia.
  lia.
Qed.

(** ** Paths *)

Lemma handover_path_not_error_log tp sid :
  handover_path tp sid <> error_log tp sid.
Proof.
  unfold handover_path, error_log. intros H. injection H as H.
  apply (f_equal len) in H. rewrite !len_append in H.
  change (len ".md") with 3%Z in H. change (len ".error.log") with 10%Z in H.
  lia.
Qed.

Lemma error_log_not_handover_path tp sid :
  error_log tp sid <> handover_path tp sid.
Proof. intros H. symmetry in H. now apply handover_path_not_error_log in H. Qed.

Lemma lookup_after_rmtree d (m : gmap path string) p :
  in_dir d p = false ->
  filter (fun kv : path * string => in_dir d kv.1 = false) m !! p = m !! p.
Proof.
  intros H. rewrite map_lookup_filter.
  destruct (m !! p) as [x|]; simpl; [|reflexivity].
  rewrite option_guard_True by exact H. reflexivity.
Qed.

Lemma write_event_path p c q d : EvWriteText p c = EvWriteText q d -> p = q.
Proof. congruence. Qed.

Lemma new_events_same w : new_events w w = [].
Proof. unfold new_events. apply drop_all. Qed.

(** ** The coordinator *)

Ltac in_cases H :=
  simpl in H;
  repeat match type of H with _ \/ _ => destruct H as [H|H] end;
  try discriminate H; try contradiction.

Ltac events_in H :=
  unfold new_events in H; simpl in H; rewrite <- ?app_assoc in H; simpl in H;
  rewrite drop_app_length in H.

Ltac events :=
  unfold new_events; simpl; rewrite <- ?app_assoc; simpl;
  rewrite drop_app_length.

Ltac lookups :=
  simpl;
  rewrite ?lookup_after_rmtree by reflexivity;
  repeat first
    [ rewrite lookup_insert_eq
    | rewrite lookup_insert_ne
        by first [ discriminate
                 | apply handover_path_not_error_log
                 | apply error_log_not_handover_path ] ].

Section Coordinator.

Variable py_str : json -> string.
Variable run : world -> prompt -> Z -> proc.
Variable isoformat : nat -> string.
Variable mkdtemp : world -> string.

Abbreviation main' := (main py_str run isoformat mkdtemp).

Lemma call_claude_eq p t w :
  call_claude run p t w =
  (emit (EvRun p t (run w p t)) w,
   match run w p t with
   | Completed rc out =>
       if (rc =? 0)%Z && truthy (strip out)
       then Val (Some (strip out)) else Val None
   | TimeoutExpired => Timeout
   | Failed n m => Error n m
   end).
Proof.
  unfold call_claude.
  destruct (run w p t) as [rc out| |n m]; [destruct (_ && _)|..]; reflexivity.
Qed.

(** A run either leaves the world as it is, or it has parsed at least
    one turn and goes through the [try] block, the handlers and the
    final clean-up. *)
Lemma main_cases argv w :
  (main' argv w).1 = w
  \/ exists prog sid tp rest lines summary turn turns,
       argv = prog :: sid :: tp :: rest
       /\ logs w !! tp = Some lines
       /\ parse_jsonl py_str lines = Ok (Parsed summary (turn :: turns))
       /\ main' argv w =
          (rmtree (mkdtemp w)
             (handlers isoformat sid tp
                (try_block run isoformat sid tp
                   (default "" (files w !! handover_path tp sid))
                   summary (turn :: turns) (mkdtemp w)
                   (make_work_dir mkdtemp w).1)),
           Returns).
Proof.
  unfold main. destruct argv as [|prog [|sid [|tp rest]]]; try (left; reflexivity).
  destruct (logs w !! tp) as [lines|] eqn:Hl; [|left; reflexivity].
  destruct (parse_jsonl py_str lines) as [[|summary [|turn turns]]|e] eqn:Hp;
    try (left; reflexivity).
  right. exists prog, sid, tp, rest, lines, summary, turn, turns.
  repeat split; try assumption.
Qed.

Ltac step_call :=
  rewrite call_claude_eq;
  match goal with
  | |- context [run ?w ?p ?t] =>
      let R := fresh "R" in
      destruct (run w p t) as [?rc ?out| |?n ?m] eqn:R
  end.

Ltac split_output :=
  match goal with
  | |- context [((?rc =? 0)%Z && truthy (strip ?out))] =>
      let Erc := fresh "Erc" in
      let Eout := fresh "Eout" in
      destruct (rc =? 0)%Z eqn:Erc; destruct (truthy (strip out)) eqn:Eout;
      simpl; rewrite ?Eout; simpl
  end.

(** The scan finds no boundary where there is no boundary record. *)
Lemma find_boundaries_no_record i lines bs :
  existsb boundary_record lines = false ->
  find_boundaries i lines = Ok bs -> bs = [].
Proof.
  revert i bs. induction lines as [|[obj|] lines IH]; intros i bs Hb H;
    cbn [find_boundaries existsb] in *.
  - congruence.
  - apply orb_false_elim in Hb as [Hb1 Hb2].
    apply rbind_ok in H as (b & Hbo & H).
    apply rbind_ok in H as (bs' & Hbs & H).
    apply is_compact_boundary_ok in Hbo as [_ ->]. rewrite Hb1 in H.
    apply IH in Hbs; [congruence | exact Hb2].
  - eapply IH; eassumption.
Qed.

(** C8. On a log without a compaction-boundary record the run leaves
    the world as it is: no file is written, no directory is made, the
    trace gains no effect.  When every line that decodes is an object,
    the parser returns the no-compaction sentinel and [main]
    returns. *)
Theorem no_compaction_no_effect
    (argv : list string) (w : world) (prog sid tp : string)
    (rest : list string) (lines : list line) :
  argv = prog :: sid :: tp :: rest ->
  logs w !! tp = Some lines ->
  existsb boundary_record lines = false ->
  (main' argv w).1 = w
  /\ new_events w (main' argv w).1 = []
  /\ (forallb is_record lines = true ->
      parse_jsonl py_str lines = Ok NoCompaction
      /\ main' argv w = (w, Returns)).
Proof.
  intros -> Hl Hb.
  assert (Hp : parse_jsonl py_str lines = Ok NoCompaction
               \/ exists e, parse_jsonl py_str lines = Raise e).
  { unfold parse_jsonl.
    destruct (find_boundaries 0 lines) as [bs|e] eqn:Hbs; simpl; [|eauto].
    apply find_boundaries_no_record in Hbs as ->; [|exact Hb]. now left. }
  assert (Hw : (main' (prog :: sid :: tp :: rest) w).1 = w).
  { unfold main. rewrite Hl. destruct Hp as [-> | [e ->]]; reflexivity. }
  split; [exact Hw|]. split; [rewrite Hw; apply new_events_same|].
  intros Hr.
  assert (Hn : parse_jsonl py_str lines = Ok NoCompaction).
  { unfold parse_jsonl.
    rewrite (proj2 (find_boundaries_none 0 lines) (conj Hr Hb)). reflexivity. }
  split; [exact Hn|]. unfold main. rewrite Hl, Hn. reflexivity.
Qed.

(** A run that finds no prior text and whose Pass 1 returns a
    fragment writes the fragment as the document and never calls the
    merge. *)
Lemma first_compaction_run argv w prog sid tp rest fragment :
  argv = prog :: sid :: tp :: rest ->
  default "" (files w !! handover_path tp sid) = "" ->
  pass1_returned (new_events w (main' argv w).1) fragment ->
  files (main' argv w).1 !! handover_path tp sid = Some fragment
  /\ ~ pass2_invoked (new_events w (main' argv w).1)
  /\ (exists now,
        In (EvWriteStatus (Status "pass1" 0 0 sid now "")) (new_events w (main' argv w).1))
  /\ (main' argv w).2 = Returns.
Proof.
  intros Hargv Hex.
  destruct (main_cases argv w)
    as [Hno | (prog' & sid' & tp' & rest' & lines & summary & turn & turns
               & Hargv' & _ & _ & Hmain)].
  { rewrite Hno, new_events_same. intros (? & ? & ? & [] & _). }
  rewrite Hargv in Hargv'. injection Hargv' as <- <- <- <-.
  rewrite Hmain, Hex. clear Hmain Hex. simpl fst. simpl snd.
  unfold try_block, pass1_extract. step_call; [split_output|..];
    intros (sf & tf & out' & Hin & Hs & Hne); events_in Hin; in_cases Hin.
  - simplify_eq.
    split; [lookups; reflexivity|].
    split; [intros (ef & ff & t & r & Hin); events_in Hin; in_cases Hin|].
    split; [|reflexivity].
    eexists. events. right. left. reflexivity.
  - simplify_eq. apply truthy_false in Eout. contradiction.
  - simplify_eq.
  - simplify_eq.
Qed.

(** C3. When no prior handover document exists and Pass 1 returns a
    fragment, the document on disk after the run is the fragment,
    verbatim, and the merge call is never made. *)
Theorem first_compaction_document
    (argv : list string) (w : world) (prog sid tp : string)
    (rest : list string) (fragment : string) :
  argv = prog :: sid :: tp :: rest ->
  files w !! handover_path tp sid = None ->
  pass1_returned (new_events w (main' argv w).1) fragment ->
  files (main' argv w).1 !! handover_path tp sid = Some fragment
  /\ ~ pass2_invoked (new_events w (main' argv w).1).
Proof.
  intros Hargv Hnone H1.
  destruct (first_compaction_run argv w prog sid tp rest fragment Hargv)
    as (Hdoc & Hno & _); [now rewrite Hnone | exact H1 |].
  split; assumption.
Qed.

(** C10. When the prior handover document exists but is empty and
    Pass 1 returns a fragment, the run goes as a first compaction: the
    progress pair of the [pass1] status is 0 of 0, the merge call is
    never made, and the document on disk afterwards is the fragment. *)
Theorem empty_prior_document_as_none
    (argv : list string) (w : world) (prog sid tp : string)
    (rest : list string) (fragment : string) :
  argv = prog :: sid :: tp :: rest ->
  files w !! handover_path tp sid = Some "" ->
  pass1_returned (new_events w (main' argv w).1) fragment ->
  files (main' argv w).1 !! handover_path tp sid = Some fragment
  /\ ~ pass2_invoked (new_events w (main' argv w).1)
  /\ exists now,
       In (EvWriteStatus (Status "pass1" 0 0 sid now ""))
          (new_events w (main' argv w).1).
Proof.
  intros Hargv Hempty H1.
  destruct (first_compaction_run argv w prog sid tp rest fragment Hargv)
    as (Hdoc & Hno & Hst & _); [now rewrite Hempty | exact H1 |].
  repeat split; assumption.
Qed.

(** C2. When a prior handover document exists, Pass 1 returns a
    fragment and the merge call returns no output, the document on
    disk after the run is the fragment, verbatim; the error log holds
    the entry of the degraded success; the status is [done]; the
    readiness marker exists; and [main] returns. *)
Theorem merge_failure_keeps_fragment
    (argv : list string) (w : world) (prog sid tp : string)
    (rest : list string) (prior fragment : string) :
  argv = prog :: sid :: tp :: rest ->
  files w !! handover_path tp sid = Some prior ->
  pass1_returned (new_events w (main' argv w).1) fragment ->
  pass2_no_output (new_events w (main' argv w).1) ->
  files (main' argv w).1 !! handover_path tp sid = Some fragment
  /\ (exists n,
        files (main' argv w).1 !! error_log tp sid =
        Some (log_entry (isoformat n) "Pass 2 failed, saved Pass 1 output only"))
  /\ (exists st, status_file (main' argv w).1 = Some st /\ phase st = "done")
  /\ files (main' argv w).1 !! ready_marker sid = Some sid
  /\ (main' argv w).2 = Returns.
Proof.
  intros Hargv Hprior.
  destruct (main_cases argv w)
    as [Hno | (prog' & sid' & tp' & rest' & lines & summary & turn & turns
               & Hargv' & _ & _ & Hmain)].
  { rewrite Hno, new_events_same. intros (? & ? & ? & [] & _). }
  rewrite Hargv in Hargv'. injection Hargv' as <- <- <- <-.
  rewrite Hmain, Hprior. clear Hmain Hprior. simpl fst. simpl snd. simpl default.
  unfold try_block, pass1_extract. step_call; [split_output|..];
    try (destruct (truthy prior) eqn:Eprior; simpl;
         [unfold pass2_merge; step_call; [split_output|..]|]);
    intros (sf & tf & out1 & Hin1 & Hs & Hne)
           (ef & ff & rc2 & out2 & Hin2 & Hfail);
    events_in Hin1; in_cases Hin1; events_in Hin2; in_cases Hin2;
    simplify_eq.
  - destruct Hfail as [Hrc | Hblank].
    + apply Z.eqb_eq in Erc0. contradiction.
    + rewrite Hblank in Eout0. discriminate.
  - split; [lookups; reflexivity|].
    split; [eexists; lookups; reflexivity|].
    split; [eexists; split; reflexivity|].
    split; [lookups; reflexivity | reflexivity].
  - split; [lookups; reflexivity|].
    split; [eexists; lookups; reflexivity|].
    split; [eexists; split; reflexivity|].
    split; [lookups; reflexivity | reflexivity].
  - split; [lookups; reflexivity|].
    split; [eexists; lookups; reflexivity|].
    split; [eexists; split; reflexivity|].
    split; [lookups; reflexivity | reflexivity].
Qed.

Ltac run_leaves existing :=
  unfold try_block, pass1_extract; step_call; [split_output|..];
  try (destruct (truthy existing) eqn:?; simpl;
       [unfold pass2_merge; step_call; [split_output|..]|]);
  simpl.

Ltac scan_index i H :=
  repeat match type of H with
         | (_ :: _) !! _ = _ =>
             destruct i as [|i]; simpl in H; [try discriminate H|]
         end;
  try (rewrite lookup_nil in H; discriminate H).

Ltac earlier_document :=
  first [ exists 5; eexists; split; [lia | reflexivity]
        | exists 9; eexists; split; [lia | reflexivity] ].

(** C9. In a run, the readiness marker of the session is written at
    most once; wherever it is written, the handover document was
    written earlier in the run; and a run that sets the status to
    [error] does not write the marker. *)
Theorem ready_marker_after_document
    (argv : list string) (w : world) (prog sid tp : string)
    (rest : list string) :
  argv = prog :: sid :: tp :: rest ->
  length (List.filter (is_marker_write sid) (new_events w (main' argv w).1)) <= 1
  /\ (forall i content,
        new_events w (main' argv w).1 !! i
          = Some (EvWriteText (ready_marker sid) content) ->
        exists j doc,
          j < i
          /\ new_events w (main' argv w).1 !! j
              = Some (EvWriteText (handover_path tp sid) doc))
  /\ (existsb is_error_status (new_events w (main' argv w).1) = true ->
      existsb (is_marker_write sid) (new_events w (main' argv w).1) = false).
Proof.
  intros Hargv.
  destruct (main_cases argv w)
    as [Hno | (prog' & sid' & tp' & rest' & lines & summary & turn & turns
               & Hargv' & _ & _ & Hmain)].
  { rewrite Hno, new_events_same. simpl. split; [lia|].
    split; [intros i content H; discriminate H | discriminate]. }
  rewrite Hargv in Hargv'. injection Hargv' as <- <- <- <-.
  rewrite Hmain. clear Hmain. simpl fst.
  set (existing := default "" (files w !! handover_path tp sid)).
  run_leaves existing; events; unfold ready_marker, handover_path;
    simpl; rewrite ?String.eqb_refl; simpl;
    (split; [lia|]);
    (split; [intros i content H; scan_index i H; earlier_document
            | first [discriminate | reflexivity]]).
Qed.

Ltac not_error_log H :=
  exfalso; apply write_event_path in H;
  exact (handover_path_not_error_log _ _ H).

Ltac show_entry :=
  solve [eexists; events; simpl; repeat first [left; reflexivity | right]].

Ltac merge_returned Hfail :=
  exfalso; destruct Hfail as [Hfail | Hfail];
  [ match goal with E : (_ =? 0)%Z = true |- _ =>
      apply Z.eqb_eq in E; contradiction end
  | match goal with E : truthy (strip _) = true |- _ =>
      rewrite Hfail in E; discriminate E end ].

(** C4 (as amended). Every write a run makes to the error log of the
    session replaces the whole log by one entry: a timestamp, the
    description of the failure, a newline; after the run the log holds
    that entry and nothing else.  A run that sets the status to
    [error], or whose merge call returns no output, makes such a
    write. *)
Theorem error_log_entry_replaces_log
    (argv : list string) (w : world) (prog sid tp : string)
    (rest : list string) :
  argv = prog :: sid :: tp :: rest ->
  (forall entry,
      In (EvWriteText (error_log tp sid) entry) (new_events w (main' argv w).1) ->
      files (main' argv w).1 !! error_log tp sid = Some entry
      /\ exists n what,
           entry = log_entry (isoformat n) what
           /\ (what = "Pass 1 failed (no output from claude -p)"
               \/ what = "Pass 2 failed, saved Pass 1 output only"
               \/ what = "claude -p timed out"
               \/ exists type_name msg, what = type_name +:+ ": " +:+ msg))
  /\ (existsb is_error_status (new_events w (main' argv w).1) = true
      \/ pass2_no_output (new_events w (main' argv w).1) ->
      exists entry,
        In (EvWriteText (error_log tp sid) entry) (new_events w (main' argv w).1)).
Proof.
  intros Hargv.
  destruct (main_cases argv w)
    as [Hno | (prog' & sid' & tp' & rest' & lines & summary & turn & turns
               & Hargv' & _ & _ & Hmain)].
  { rewrite Hno, new_events_same. simpl. split; [intros entry []|].
    intros [H | (? & ? & ? & ? & [] & _)]. discriminate H. }
  rewrite Hargv in Hargv'. injection Hargv' as <- <- <- <-.
  rewrite Hmain. clear Hmain. simpl fst.
  set (existing := default "" (files w !! handover_path tp sid)).
  run_leaves existing; (split; [intros entry Hin | intros [Herr | Hp2]]).
  all: try (events_in Hin; in_cases Hin; try not_error_log Hin;
            (simplify_eq;
             (split; [lookups; reflexivity|]);
             eexists; eexists; (split; [reflexivity|]);
             first [ left; reflexivity
                   | right; left; reflexivity
                   | right; right; left; reflexivity
                   | right; right; right; eexists; eexists; reflexivity ])).
  all: try (events_in Herr; simpl in Herr; try discriminate Herr; show_entry).
  all: destruct Hp2 as (ef & ff & rc2 & out2 & Hin2 & Hfail);
    events_in Hin2; in_cases Hin2;
    (simplify_eq; first [ show_entry | merge_returned Hfail ]).
Qed.

End Coordinator.

(** ** The properties on sample runs *)

Lemma no_compaction_no_effect_witness :
  (sample_main (scripted TimeoutExpired TimeoutExpired)
     (sample_world quiet_log [])).1 = sample_world quiet_log []
  /\ new_events (sample_world quiet_log [])
       (sample_main (scripted TimeoutExpired TimeoutExpired)
          (sample_world quiet_log [])).1 = []
  /\ (forallb is_record quiet_log = true ->
      parse_jsonl no_str quiet_log = Ok NoCompaction
      /\ sample_main (scripted TimeoutExpired TimeoutExpired)
           (sample_world quiet_log [])
         = (sample_world quiet_log [], Returns)).
Proof.
  apply (no_compaction_no_effect no_str (scripted TimeoutExpired TimeoutExpired)
           sample_isoformat sample_mkdtemp sample_argv (sample_world quiet_log [])
           "handover_worker.py" "s1" "/p/s1.jsonl" [] quiet_log).
  - reflexivity.
  - vm_compute. reflexivity.
  - reflexivity.
Defined.

Lemma first_compaction_document_witness :
  files (sample_main (scripted (Completed 0 " # Handover ") TimeoutExpired)
           fresh_world).1
    !! handover_path "/p/s1.jsonl" "s1" = Some "# Handover"
  /\ ~ pass2_invoked
        (new_events fresh_world
           (sample_main (scripted (Completed 0 " # Handover ") TimeoutExpired)
              fresh_world).1).
Proof.
  apply (first_compaction_document no_str
           (scripted (Completed 0 " # Handover ") TimeoutExpired)
           sample_isoformat sample_mkdtemp sample_argv fresh_world
           "handover_worker.py" "s1" "/p/s1.jsonl" [] "# Handover").
  - reflexivity.
  - vm_compute. reflexivity.
  - eexists _, _, " # Handover ". split; [|split].
    + vm_compute. do 4 right. left. reflexivity.
    + vm_compute. reflexivity.
    + discriminate.
Defined.

Lemma empty_prior_document_as_none_witness :
  files (sample_main (scripted (Completed 0 " # Handover ") TimeoutExpired)
           empty_document_world).1
    !! handover_path "/p/s1.jsonl" "s1" = Some "# Handover"
  /\ ~ pass2_invoked
        (new_events empty_document_world
           (sample_main (scripted (Completed 0 " # Handover ") TimeoutExpired)
              empty_document_world).1)
  /\ exists now,
       In (EvWriteStatus (Status "pass1" 0 0 "s1" now ""))
          (new_events empty_document_world
             (sample_main (scripted (Completed 0 " # Handover ") TimeoutExpired)
                empty_document_world).1).
Proof.
  apply (empty_prior_document_as_none no_str
           (scripted (Completed 0 " # Handover ") TimeoutExpired)
           sample_isoformat sample_mkdtemp sample_argv empty_document_world
           "handover_worker.py" "s1" "/p/s1.jsonl" [] "# Handover").
  - reflexivity.
  - vm_compute. reflexivity.
  - eexists _, _, " # Handover ". split; [|split].
    + vm_compute. do 4 right. left. reflexivity.
    + vm_compute. reflexivity.
    + discriminate.
Defined.

Lemma merge_failure_keeps_fragment_witness :
  let run := scripted (Completed 0 "# New fragment") (Completed 0 "   ") in
  files (sample_main run merged_world).1 !! handover_path "/p/s1.jsonl" "s1"
    = Some "# New fragment"
  /\ (exists n,
        files (sample_main run merged_world).1 !! error_log "/p/s1.jsonl" "s1" =
        Some (log_entry (sample_isoformat n) "Pass 2 failed, saved Pass 1 output only"))
  /\ (exists st,
        status_file (sample_main run merged_world).1 = Some st /\ phase st = "done")
  /\ files (sample_main run merged_world).1 !! ready_marker "s1" = Some "s1"
  /\ (sample_main run merged_world).2 = Returns.
Proof.
  intros run.
  apply (merge_failure_keeps_fragment no_str run
           sample_isoformat sample_mkdtemp sample_argv merged_world
           "handover_worker.py" "s1" "/p/s1.jsonl" []
           "# Handover of the first epoch" "# New fragment").
  - reflexivity.
  - vm_compute. reflexivity.
  - eexists _, _, "# New fragment". split; [|split].
    + vm_compute. do 4 right. left. reflexivity.
    + vm_compute. reflexivity.
    + discriminate.
  - eexists _, _, 0%Z, "   ". split.
    + vm_compute. do 8 right. left. reflexivity.
    + right. vm_compute. reflexivity.
Defined.

Lemma ready_marker_after_document_witness :
  let evs :=
    new_events merged_world
      (sample_main (scripted (Completed 0 "# New") (Completed 0 "# Merged"))
         merged_world).1 in
  length (List.filter (is_marker_write "s1") evs) <= 1
  /\ (forall i content,
        evs !! i = Some (EvWriteText (ready_marker "s1") content) ->
        exists j doc,
          j < i /\ evs !! j = Some (EvWriteText (handover_path "/p/s1.jsonl" "s1") doc))
  /\ (existsb is_error_status evs = true ->
      existsb (is_marker_write "s1") evs = false).
Proof.
  apply (ready_marker_after_document no_str
           (scripted (Completed 0 "# New") (Completed 0 "# Merged"))
           sample_isoformat sample_mkdtemp sample_argv merged_world
           "handover_worker.py" "s1" "/p/s1.jsonl" []).
  reflexivity.
Defined.

Lemma error_log_entry_replaces_log_witness :
  let run := scripted (Completed 1 "") TimeoutExpired in
  let evs := new_events logged_world (sample_main run logged_world).1 in
  (forall entry,
      In (EvWriteText (error_log "/p/s1.jsonl" "s1") entry) evs ->
      files (sample_main run logged_world).1 !! error_log "/p/s1.jsonl" "s1"
        = Some entry
      /\ exists n what,
           entry = log_entry (sample_isoformat n) what
           /\ (what = "Pass 1 failed (no output from claude -p)"
               \/ what = "Pass 2 failed, saved Pass 1 output only"
               \/ what = "claude -p timed out"
               \/ exists type_name msg, what = type_name +:+ ": " +:+ msg))
  /\ (existsb is_error_status evs = true \/ pass2_no_output evs ->
      exists entry, In (EvWriteText (error_log "/p/s1.jsonl" "s1") entry) evs).
Proof.
  apply (error_log_entry_replaces_log no_str
           (scripted (Completed 1 "") TimeoutExpired)
           sample_isoformat sample_mkdtemp sample_argv logged_world
           "handover_worker.py" "s1" "/p/s1.jsonl" []).
  reflexivity.
Defined.

(** C4, as stated, fails: the error log held the entry of an earlier
    run; after a run whose Pass 1 returns no output it holds the new
    entry alone, and the earlier entry is gone. *)
Lemma error_log_loses_earlier_entry :
  let run := scripted (Completed 1 "") TimeoutExpired in
  let new_entry :=
    "2025-01-01T00:00:02: Pass 1 failed (no output from claude -p)"
    +:+ String "010" "" in
  files logged_world !! error_log "/p/s1.jsonl" "s1" = Some old_entry
  /\ files (sample_main run logged_world).1 !! error_log "/p/s1.jsonl" "s1"
     = Some new_entry
  /\ str_in old_entry new_entry = false.
Proof.
  vm_compute. repeat split; reflexivity.
Qed.

Lemma pass1_size_caps_witness :
  exists S,
    In (EvWriteText (InDir "/tmp/handover_1" "compaction_summary.txt") S)
       (new_events fresh_world
          (pass1_extract (scripted (Completed 0 "fragment") TimeoutExpired)
             (repeat_char "s" (Z.to_nat 20001)) ["[user]: keep the old API"]
             "/tmp/handover_1" fresh_world).1)
    /\ len S = 20018%Z.
Proof.
  destruct (pass1_size_caps (scripted (Completed 0 "fragment") TimeoutExpired)
              (repeat_char "s" (Z.to_nat 20001)) ["[user]: keep the old API"]
              "/tmp/handover_1" fresh_world)
    as (T & S & r & Hev & _ & _ & _ & Hlong).
  exists S. rewrite Hev. split; [right; left; reflexivity|].
  apply Hlong. rewrite len_repeat_char. lia.
Defined.

(** ** Text extraction *)

Lemma text_parts_app blocks1 blocks2 :
  text_parts (blocks1 ++ blocks2) = text_parts blocks1 ++ text_parts blocks2.
Proof. unfold text_parts. apply omap_app. Qed.

Lemma text_parts_other block :
  block_has_type "text" block = false -> text_parts [block] = [].
Proof. intros H. unfold text_parts. simpl. now rewrite H. Qed.

(** X1. A block that is not a text block (a tool call, a tool result,
    a value that is not an object) does not change the extracted text,
    wherever it sits in the content list. *)
Theorem extract_text_skips_other_blocks
    (d d' : list (string * json)) (blocks1 blocks2 : list json) (block : json) :
  block_has_type "text" block = false ->
  dict_get d "content" = Some (JArr (blocks1 ++ block :: blocks2)) ->
  dict_get d' "content" = Some (JArr (blocks1 ++ blocks2)) ->
  extract_text (JObj d) = extract_text (JObj d').
Proof.
  intros Hb Hd Hd'. unfold extract_text. simpl. rewrite Hd, Hd'. simpl.
  change (block :: blocks2) with ([block] ++ blocks2).
  rewrite !text_parts_app, (text_parts_other _ Hb). reflexivity.
Qed.

Lemma extract_text_skips_other_blocks_witness :
  extract_text
    (JObj [("role", JStr "assistant");
           ("content",
            JArr [JObj [("type", JStr "text"); ("text", JStr "first")];
                  JObj [("type", JStr "tool_use"); ("name", JStr "Read")];
                  JObj [("type", JStr "text"); ("text", JStr "second")]])])
  = extract_text
      (JObj [("content",
              JArr [JObj [("type", JStr "text"); ("text", JStr "first")];
                    JObj [("type", JStr "text"); ("text", JStr "second")]])]).
Proof.
  apply (extract_text_skips_other_blocks _ _
           [JObj [("type", JStr "text"); ("text", JStr "first")]]
           [JObj [("type", JStr "text"); ("text", JStr "second")]]
           (JObj [("type", JStr "tool_use"); ("name", JStr "Read")]));
    reflexivity.
Defined.

Lemma join_values_ok parts :
  (exists ss, join_values parts = Ok ss)
  <-> Forall (fun v => exists s, v = JStr s) parts.
Proof.
  induction parts as [|v parts IH]; simpl.
  - split; [constructor | eauto].
  - split.
    + intros [ss H]. destruct v; try discriminate H.
      apply rbind_ok in H as (ss' & H' & _).
      constructor; [eauto | apply IH; eauto].
    + intros H. inversion H as [|? ? [s ->] Hrest]; subst.
      apply IH in Hrest as [ss ->]. simpl. eauto.
Qed.

Lemma join_values_raises parts e :
  join_values parts = Raise e -> e = TypeError.
Proof.
  induction parts as [|v parts IH]; simpl; [discriminate|].
  destruct v; try congruence.
  destruct (join_values parts); simpl; [discriminate|].
  intros H. injection H as <-. now apply IH.
Qed.

Lemma text_parts_in v blocks :
  In v (text_parts blocks) <->
  exists bd, In (JObj bd) blocks
             /\ is_str (default JNull (dict_get bd "type")) "text" = true
             /\ v = default (JStr "") (dict_get bd "text").
Proof.
  unfold text_parts. induction blocks as [|b blocks IH]; simpl.
  - split; [intros [] | intros (? & [] & _)].
  - destruct (block_has_type "text" b) eqn:Hb.
    + destruct b as [| | | | |bd]; try discriminate Hb. simpl in *.
      rewrite IH. split.
      * intros [<- | (bd' & Hin & Ht & ->)]; [exists bd | exists bd']; auto.
      * intros (bd' & [Heq | Hin] & Ht & ->).
        -- injection Heq as ->. now left.
        -- right. exists bd'. auto.
    + rewrite IH. split.
      * intros (bd' & Hin & Ht & ->). exists bd'. auto.
      * intros (bd' & [Heq | Hin] & Ht & ->).
        -- subst b. simpl in Hb. congruence.
        -- exists bd'. auto.
Qed.

(** X2. On a message object [extract_text] raises exactly when the
    content is a list holding a text block whose [text] is not a
    string, and what it raises then is [TypeError]. *)
Theorem extract_text_raises (d : list (string * json)) :
  (forall e, extract_text (JObj d) = Raise e -> e = TypeError)
  /\ ((exists e, extract_text (JObj d) = Raise e)
      <-> (exists blocks bd v,
             dict_get d "content" = Some (JArr blocks)
             /\ In (JObj bd) blocks
             /\ dict_get bd "type" = Some (JStr "text")
             /\ dict_get bd "text" = Some v
             /\ forall s, v <> JStr s)).
Proof.
  unfold extract_text. simpl. split.
  { intros e H.
    destruct (dict_get d "content") as [[| | | |blocks|]|];
      simpl in H; try discriminate H.
    destruct (join_values (text_parts blocks)) as [ss|e'] eqn:Hj;
      [discriminate H|].
    injection H as <-. eapply join_values_raises; eassumption. }
  split.
  - intros [e H].
    destruct (dict_get d "content") as [[| | | |blocks|]|] eqn:Hc;
      simpl in H; try discriminate H.
    destruct (join_values (text_parts blocks)) as [ss|e'] eqn:Hj;
      [discriminate H|].
    assert (Hn : ~ Forall (fun v => exists s, v = JStr s) (text_parts blocks)).
    { intros HF. apply join_values_ok in HF as [ss Hss]. congruence. }
    apply not_Forall_Exists in Hn; [|intros v; destruct v; (left; eauto; fail)
                                       || (right; intros [s Hs]; discriminate Hs)].
    apply Exists_exists in Hn as (v & Hin & Hv).
    apply text_parts_in in Hin as (bd & Hbd & Ht & ->).
    exists blocks, bd, (default (JStr "") (dict_get bd "text")).
    split; [reflexivity|]. split; [exact Hbd|].
    destruct (dict_get bd "type") as [ty|] eqn:Hty; [|discriminate Ht].
    apply is_str_eq in Ht. simpl in Ht. subst ty. split; [reflexivity|].
    destruct (dict_get bd "text") as [v|] eqn:Htx.
    + split; [reflexivity|]. intros s Hs. apply Hv. exists s. exact Hs.
    + exfalso. apply Hv. simpl. eauto.
  - intros (blocks & bd & v & Hc & Hin & Hty & Htx & Hv). rewrite Hc. simpl.
    destruct (join_values (text_parts blocks)) as [ss|e] eqn:Hj; [|simpl; eauto].
    exfalso.
    assert (HF : Forall (fun v => exists s, v = JStr s) (text_parts blocks))
      by (apply join_values_ok; eauto).
    rewrite Forall_forall in HF.
    destruct (HF v) as [s Hs]; [|exact (Hv s Hs)].
    apply text_parts_in. exists bd. rewrite Hty, Htx. simpl. auto.
Qed.

(** ** Which records yield a turn *)

(** X3. An assistant record whose content list holds a tool-use block
    yields no turn, whatever else the list holds: the record is skipped
    before its text is extracted, so not even a text block that cannot
    be joined makes the parser raise. *)
Theorem assistant_tool_use_skipped
    (py_str : json -> string) (obj ty role : json)
    (d bd : list (string * json)) (blocks : list json) :
  py_get obj "type" (JStr "") = Ok ty ->
  is_str ty "user" || is_str ty "assistant" = true ->
  py_get obj "message" (JObj []) = Ok (JObj d) ->
  default ty (dict_get d "role") = role ->
  is_str role "assistant" = true ->
  dict_get d "content" = Some (JArr blocks) ->
  In (JObj bd) blocks ->
  dict_get bd "type" = Some (JStr "tool_use") ->
  conversation_entry py_str obj = Ok None.
Proof.
  intros Hty Hkind Hmsg Hrole Hassistant Hc Hin Hbd.
  unfold conversation_entry. rewrite Hty. simpl. rewrite Hkind. simpl.
  rewrite Hmsg. simpl. rewrite Hrole, Hassistant.
  unfold has_tool_use. simpl. rewrite Hc. simpl.
  replace (existsb (block_has_type "tool_use") blocks) with true; [reflexivity|].
  symmetry. apply existsb_exists. exists (JObj bd). split; [exact Hin|].
  simpl. now rewrite Hbd.
Qed.

Lemma assistant_tool_use_skipped_witness :
  conversation_entry no_str
    (JObj [("type", JStr "assistant");
           ("message",
            JObj [("content",
                   JArr [JObj [("type", JStr "text"); ("text", JNull)];
                         JObj [("type", JStr "tool_use"); ("name", JStr "Bash")]])])])
  = Ok None.
Proof.
  apply (assistant_tool_use_skipped no_str _ (JStr "assistant") (JStr "assistant")
           [("content",
             JArr [JObj [("type", JStr "text"); ("text", JNull)];
                   JObj [("type", JStr "tool_use"); ("name", JStr "Bash")]])]
           [("type", JStr "tool_use"); ("name", JStr "Bash")]
           [JObj [("type", JStr "text"); ("text", JNull)];
            JObj [("type", JStr "tool_use"); ("name", JStr "Bash")]]);
    try reflexivity.
  right. left. reflexivity.
Defined.

(** X4. An assistant record without a tool-use block whose text is not
    blank yields the turn [[assistant]: text], cut by [truncated],
    however short the text is: the threshold of 10 characters is for
    user turns only. *)
Theorem assistant_text_turn_included
    (py_str : json -> string) (obj ty msg role : json) (text : string) :
  py_get obj "type" (JStr "") = Ok ty ->
  is_str ty "user" || is_str ty "assistant" = true ->
  py_get obj "message" (JObj []) = Ok msg ->
  py_get msg "role" ty = Ok role ->
  is_str role "assistant" = true ->
  has_tool_use msg = Ok false ->
  extract_text msg = Ok text ->
  strip text <> "" ->
  conversation_entry py_str obj = Ok (Some ("[assistant]: " +:+ truncated text)).
Proof.
  intros Hty Hkind Hmsg Hrole Hassistant Htool Htext Hblank.
  unfold conversation_entry. rewrite Hty. simpl. rewrite Hkind. simpl.
  rewrite Hmsg. simpl. rewrite Hrole. simpl. rewrite Hassistant, Htool. simpl.
  rewrite Htext. simpl.
  apply truthy_true in Hblank. rewrite Hblank. simpl.
  apply is_str_eq in Hassistant. subst role. reflexivity.
Qed.

Lemma assistant_text_turn_included_witness :
  conversation_entry no_str
    (JObj [("type", JStr "assistant");
           ("message", JObj [("role", JStr "assistant"); ("content", JStr "ok")])])
  = Ok (Some ("[assistant]: " +:+ truncated "ok")).
Proof.
  apply (assistant_text_turn_included no_str _ (JStr "assistant")
           (JObj [("role", JStr "assistant"); ("content", JStr "ok")])
           (JStr "assistant") "ok");
    first [reflexivity | vm_compute; discriminate].
Defined.

Lemma text_parts_none blocks :
  forallb (fun b => negb (block_has_type "text" b)) blocks = true ->
  text_parts blocks = [].
Proof.
  unfold text_parts. induction blocks as [|b blocks IH]; simpl; [reflexivity|].
  intros H. apply andb_prop in H as [Hb H].
  apply negb_true_iff in Hb. rewrite Hb. auto.
Qed.

(** X5. A record whose content list holds no text block (tool calls
    and tool results only, or nothing) yields no turn, whatever its
    type and its role, and the parser does not raise on it. *)
Theorem record_without_text_skipped
    (py_str : json -> string) (obj : json)
    (d : list (string * json)) (blocks : list json) :
  py_get obj "message" (JObj []) = Ok (JObj d) ->
  dict_get d "content" = Some (JArr blocks) ->
  forallb (fun b => negb (block_has_type "text" b)) blocks = true ->
  conversation_entry py_str obj = Ok None.
Proof.
  intros Hmsg Hc Hnone. unfold conversation_entry.
  destruct obj as [| | | | |od]; try discriminate Hmsg. simpl.
  destruct (negb _); [reflexivity|].
  simpl in Hmsg. injection Hmsg as Hmsg. rewrite Hmsg. simpl.
  unfold has_tool_use, extract_text. simpl. rewrite Hc. simpl.
  rewrite (text_parts_none _ Hnone). simpl.
  destruct (is_str _ "assistant"); simpl; [|reflexivity].
  destruct (existsb _ blocks); reflexivity.
Qed.

Lemma record_without_text_skipped_witness :
  conversation_entry no_str
    (JObj [("type", JStr "user");
           ("message",
            JObj [("role", JStr "user");
                  ("content",
                   JArr [JObj [("type", JStr "tool_result");
                               ("content", JStr "a long enough tool output")]])])])
  = Ok None.
Proof.
  apply (record_without_text_skipped no_str _
           [("role", JStr "user");
            ("content",
             JArr [JObj [("type", JStr "tool_result");
                         ("content", JStr "a long enough tool output")]])]
           [JObj [("type", JStr "tool_result");
                  ("content", JStr "a long enough tool output")]]);
    reflexivity.
Defined.

(** ** The compaction summary *)

Lemma py_range_in i a b : In i (py_range a b) <-> a <= i < b.
Proof. unfold py_range. rewrite in_seq. lia. Qed.

(** A boundary the scan finds is the position of a boundary record. *)
Lemma find_boundaries_boundary i lines bs b :
  find_boundaries i lines = Ok bs ->
  In b bs ->
  exists l, lines !! (b - i) = Some l /\ boundary_record l = true /\ i <= b.
Proof.
  revert i bs. induction lines as [|[obj|] rest IH]; intros i bs H Hin;
    cbn [find_boundaries] in H.
  - injection H as <-. destruct Hin.
  - apply rbind_ok in H as (c & Hc & H). apply rbind_ok in H as (bs' & Hbs & H).
    injection H as <-. apply is_compact_boundary_ok in Hc as [_ ->].
    assert (Hrest : In b bs' ->
                    exists l, (Some obj :: rest) !! (b - i) = Some l
                              /\ boundary_record l = true /\ i <= b).
    { intros Hb. destruct (IH _ _ Hbs Hb) as (l & Hl & Hbl & Hle).
      exists l. replace (b - i) with (S (b - S i)) by lia. auto with lia. }
    destruct (boundary_record (Some obj)) eqn:Hb; [|auto].
    destruct Hin as [<- | Hin]; [|auto].
    exists (Some obj). replace (i - i) with 0 by lia. auto.
  - destruct (IH _ _ H Hin) as (l & Hl & Hbl & Hle).
    exists l. replace (b - i) with (S (b - S i)) by lia. auto with lia.
Qed.

Lemma find_summary_source lines idxs summary :
  find_summary lines idxs = Ok summary ->
  summary = ""
  \/ exists i obj msg,
       In i idxs
       /\ lines !! i = Some (Some obj)
       /\ py_get obj "message" (JObj []) = Ok msg
       /\ py_get msg "role" JNull = Ok (JStr "user")
       /\ extract_text msg = Ok summary
       /\ str_in summary_marker summary = true.
Proof.
  induction idxs as [|i idxs IH]; intros H; cbn [find_summary] in H.
  - left. congruence.
  - assert (Hrest : find_summary lines idxs = Ok summary ->
                    summary = ""
                    \/ exists i' obj msg,
                         In i' (i :: idxs)
                         /\ lines !! i' = Some (Some obj)
                         /\ py_get obj "message" (JObj []) = Ok msg
                         /\ py_get msg "role" JNull = Ok (JStr "user")
                         /\ extract_text msg = Ok summary
                         /\ str_in summary_marker summary = true).
    { intros H'. destruct (IH H') as [-> | (i' & obj & msg & Hin & Hrest)];
        [now left | right]. exists i', obj, msg. split; [now right | exact Hrest]. }
    apply rbind_ok in H as (l & Hl & H). unfold line_at in Hl.
    destruct (lines !! i) as [l'|] eqn:Hi; [|discriminate].
    injection Hl as ->. destruct l as [obj|]; [|auto].
    apply rbind_ok in H as (msg & Hmsg & H).
    apply rbind_ok in H as (role & Hrole & H).
    destruct (is_str role "user") eqn:Hu; [|auto].
    apply rbind_ok in H as (text & Htext & H).
    destruct (str_in summary_marker text) eqn:Hm; [|auto].
    injection H as <-. apply is_str_eq in Hu. subst role.
    right. exists i, obj, msg. repeat split; auto. now left.
Qed.

(** X6. The compaction summary the parser returns is empty, or it is
    the text of a user message that carries the marker phrase and sits
    on one of the four lines behind a compaction-boundary record. *)
Theorem compaction_summary_source
    (py_str : json -> string) (lines : list line) (summary : string)
    (conv : list string) :
  parse_jsonl py_str lines = Ok (Parsed summary conv) ->
  summary = ""
  \/ exists last boundary i obj msg,
       lines !! last = Some boundary
       /\ boundary_record boundary = true
       /\ last < i <= last + 4
       /\ lines !! i = Some (Some obj)
       /\ py_get obj "message" (JObj []) = Ok msg
       /\ py_get msg "role" JNull = Ok (JStr "user")
       /\ extract_text msg = Ok summary
       /\ str_in summary_marker summary = true.
Proof.
  unfold parse_jsonl. intros H.
  apply rbind_ok in H as (bs & Hbs & H). destruct bs as [|b bs]; [discriminate|].
  apply rbind_ok in H as (s & Hs & H). apply rbind_ok in H as (c & _ & H).
  injection H as <- _.
  apply find_summary_source in Hs as [-> | (i & obj & msg & Hin & Hrest)];
    [now left | right].
  destruct (find_boundaries_boundary 0 lines (b :: bs) (last_boundary (b :: bs)) Hbs)
    as (l & Hl & Hbl & _).
  { unfold last_boundary. destruct (exists_last (l:=b :: bs)) as (bs' & x & ->);
      [discriminate|]. rewrite last_last. apply in_or_app. right. now left. }
  rewrite Nat.sub_0_r in Hl.
  exists (last_boundary (b :: bs)), l, i, obj, msg.
  apply py_range_in in Hin. repeat split; try tauto; lia.
Qed.

Lemma compaction_summary_source_witness :
  "This session is being continued from a previous conversation." = ""
  \/ exists last boundary i obj msg,
       one_boundary_log !! last = Some boundary
       /\ boundary_record boundary = true
       /\ last < i <= last + 4
       /\ one_boundary_log !! i = Some (Some obj)
       /\ py_get obj "message" (JObj []) = Ok msg
       /\ py_get msg "role" JNull = Ok (JStr "user")
       /\ extract_text msg
          = Ok "This session is being continued from a previous conversation."
       /\ str_in summary_marker
            "This session is being continued from a previous conversation." = true.
Proof.
  apply (compaction_summary_source no_str one_boundary_log _
           ["[user]: please keep the old API"; "[assistant]: ok"]).
  reflexivity.
Defined.

(** ** Lines behind the lookahead window *)

Lemma find_summary_app_l lines extra idxs :
  Forall (fun i => i < length lines) idxs ->
  find_summary (lines ++ extra) idxs = find_summary lines idxs.
Proof.
  induction idxs as [|i idxs IH]; intros H; [reflexivity|].
  inversion H; subst. cbn [find_summary]. unfold line_at.
  rewrite lookup_app_l by assumption. rewrite IH by assumption. reflexivity.
Qed.

Lemma collect_conversation_app_l py_str lines extra idxs :
  Forall (fun i => i < length lines) idxs ->
  collect_conversation py_str (lines ++ extra) idxs =
  collect_conversation py_str lines idxs.
Proof.
  induction idxs as [|i idxs IH]; intros H; [reflexivity|].
  inversion H; subst. cbn [collect_conversation]. unfold line_at.
  rewrite lookup_app_l by assumption. rewrite IH by assumption. reflexivity.
Qed.

Lemma existsb_lookup_false (lines : list line) i l :
  existsb boundary_record lines = false ->
  lines !! i = Some l -> boundary_record l = false.
Proof.
  revert i. induction lines as [|l' lines IH]; intros i H Hl; [discriminate|].
  simpl in H. apply orb_false_elim in H as [H1 H2].
  destruct i as [|i]; simpl in Hl; [congruence | eauto].
Qed.

(** X7. When no boundary record sits on the last four lines of a log,
    records without a boundary that are appended to the log do not
    change what the parser returns: a session that goes on writing its
    log after the compaction does not disturb the worker. *)
Theorem parse_jsonl_ignores_appended_records
    (py_str : json -> string) (lines extra : list line) :
  existsb boundary_record (drop (length lines - 4) lines) = false ->
  forallb is_record extra = true ->
  existsb boundary_record extra = false ->
  parse_jsonl py_str (lines ++ extra) = parse_jsonl py_str lines.
Proof.
  intros Htail Hrec Hnone. unfold parse_jsonl.
  rewrite find_boundaries_app.
  rewrite (proj2 (find_boundaries_none (0 + length lines) extra) (conj Hrec Hnone)).
  destruct (find_boundaries 0 lines) as [bs|e] eqn:Hbs; simpl; [|reflexivity].
  rewrite app_nil_r. destruct bs as [|b bs]; [reflexivity|].
  set (last := last_boundary (b :: bs)).
  assert (Hlast : last + 5 <= length lines).
  { destruct (find_boundaries_boundary 0 lines (b :: bs) last Hbs)
      as (l & Hl & Hbl & _).
    { unfold last, last_boundary.
      destruct (exists_last (l:=b :: bs)) as (bs' & x & ->); [discriminate|].
      rewrite last_last. apply in_or_app. right. now left. }
    rewrite Nat.sub_0_r in Hl.
    assert (last < length lines) by (eapply lookup_lt_Some; eassumption).
    destruct (decide (last + 5 <= length lines)) as [?|Hn]; [assumption|].
    exfalso.
    assert (Hd : drop (length lines - 4) lines !! (last - (length lines - 4)) = Some l)
      by (rewrite lookup_drop; rewrite <- Hl; f_equal; lia).
    rewrite (existsb_lookup_false _ _ _ Htail Hd) in Hbl. discriminate. }
  rewrite length_app.
  replace (Nat.min (last + 5) (length lines + length extra)) with (last + 5) by lia.
  replace (Nat.min (last + 5) (length lines)) with (last + 5) by lia.
  rewrite find_summary_app_l, collect_conversation_app_l; [reflexivity| |].
  - apply Forall_forall. intros i Hi.
    apply py_range_in in Hi.
    assert (start_idx (b :: bs) <= i < last) by exact Hi. lia.
  - apply Forall_forall. intros i Hi. apply py_range_in in Hi. lia.
Qed.

Lemma parse_jsonl_ignores_appended_records_witness :
  parse_jsonl no_str
    (settled_log ++ [text_record "user" "user" "and now for the next task"; None])
  = parse_jsonl no_str settled_log.
Proof.
  apply (parse_jsonl_ignores_appended_records no_str settled_log
           [text_record "user" "user" "and now for the next task"; None]);
    reflexivity.
Defined.

(** ** When the parser raises *)

Lemma is_compact_boundary_raises obj e :
  is_compact_boundary obj = Raise e -> e = AttributeError.
Proof.
  destruct obj; simpl; unfold is_compact_boundary; simpl; try congruence.
  destruct (is_str _ "system"); discriminate.
Qed.

Lemma find_boundaries_raises i lines e :
  find_boundaries i lines = Raise e -> e = AttributeError.
Proof.
  revert i. induction lines as [|[obj|] rest IH]; intros i H;
    cbn [find_boundaries] in H; [discriminate| |eauto].
  destruct (is_compact_boundary obj) as [b|e'] eqn:Hb; simpl in H.
  - destruct (find_boundaries (S i) rest) as [bs|e'] eqn:Hr; simpl in H;
      [discriminate|]. injection H as <-. eauto.
  - injection H as <-. eapply is_compact_boundary_raises; eassumption.
Qed.

Lemma find_boundaries_not_object i lines v :
  In (Some v) lines -> (forall d, v <> JObj d) ->
  find_boundaries i lines = Raise AttributeError.
Proof.
  intros Hin Hv. destruct (find_boundaries i lines) as [bs|e] eqn:H.
  - exfalso. revert i bs H.
    induction lines as [|[obj|] rest IH]; intros i bs H; [destruct Hin| |].
    + cbn [find_boundaries] in H.
      apply rbind_ok in H as (b & Hb & H). apply rbind_ok in H as (bs' & Hbs & _).
      destruct Hin as [Heq | Hin]; [|eauto].
      injection Heq as ->. apply is_compact_boundary_ok in Hb as [Hr _].
      destruct v; try discriminate Hr. eapply Hv; reflexivity.
    + destruct Hin as [Heq | Hin]; [discriminate|]. cbn [find_boundaries] in H. eauto.
  - f_equal. eapply find_boundaries_raises; eassumption.
Qed.

(** X8. A line that holds valid JSON which is not an object (a number,
    a string, a list, [null]) makes the parser raise [AttributeError],
    wherever the line sits in the log; [main], which calls the parser
    outside its [try] block, then ends on that exception before it has
    written anything. *)
Theorem non_object_line_is_fatal
    (py_str : json -> string) (run : world -> prompt -> Z -> proc)
    (isoformat : nat -> string) (mkdtemp : world -> string)
    (prog sid tp : string) (rest : list string) (w : world)
    (lines : list line) (v : json) :
  logs w !! tp = Some lines ->
  In (Some v) lines ->
  (forall d, v <> JObj d) ->
  parse_jsonl py_str lines = Raise AttributeError
  /\ main py_str run isoformat mkdtemp (prog :: sid :: tp :: rest) w
     = (w, Uncaught AttributeError).
Proof.
  intros Hl Hin Hv.
  assert (Hp : parse_jsonl py_str lines = Raise AttributeError).
  { unfold parse_jsonl. now rewrite (find_boundaries_not_object 0 lines v Hin Hv). }
  split; [exact Hp|]. unfold main. rewrite Hl, Hp. reflexivity.
Qed.

Lemma non_object_line_is_fatal_witness :
  parse_jsonl no_str (one_boundary_log ++ [Some (JNum "42")]) = Raise AttributeError
  /\ sample_main (scripted TimeoutExpired TimeoutExpired)
       (sample_world (one_boundary_log ++ [Some (JNum "42")]) [])
     = (sample_world (one_boundary_log ++ [Some (JNum "42")]) [],
        Uncaught AttributeError).
Proof.
  apply (non_object_line_is_fatal no_str (scripted TimeoutExpired TimeoutExpired)
           sample_isoformat sample_mkdtemp "handover_worker.py" "s1" "/p/s1.jsonl" []
           (sample_world (one_boundary_log ++ [Some (JNum "42")]) [])
           (one_boundary_log ++ [Some (JNum "42")]) (JNum "42")).
  - vm_compute. reflexivity.
  - apply in_or_app. right. left. reflexivity.
  - discriminate.
Defined.

Lemma extract_text_readable msg :
  readable_message msg = true -> exists text, extract_text msg = Ok text.
Proof.
  destruct msg as [| | | | |d]; try discriminate. unfold extract_text. simpl.
  destruct (default (JStr "") (dict_get d "content")) as [| | | |blocks|] eqn:Hc;
    simpl; eauto.
  intros H.
  assert (HF : Forall (fun v => exists s, v = JStr s) (text_parts blocks)).
  { apply Forall_forall. intros v Hv.
    apply text_parts_in in Hv as (bd & Hin & Ht & ->).
    rewrite forallb_forall in H. specialize (H _ Hin).
    unfold joinable_block in H. simpl in H. rewrite Ht in H.
    destruct (default (JStr "") (dict_get bd "text")); try discriminate H. eauto. }
  apply join_values_ok in HF as [ss ->]. simpl. eauto.
Qed.

Lemma has_tool_use_readable msg :
  readable_message msg = true -> exists b, has_tool_use msg = Ok b.
Proof.
  destruct msg as [| | | | |d]; try discriminate. intros _.
  unfold has_tool_use. simpl.
  destruct (default (JArr []) (dict_get d "content")); simpl; eauto.
Qed.

Lemma conversation_entry_readable py_str obj :
  readable_line (Some obj) = true ->
  exists e, conversation_entry py_str obj = Ok e.
Proof.
  destruct obj as [| | | | |d]; try discriminate. simpl. intros H.
  unfold conversation_entry. simpl.
  destruct (negb _); [eauto|].
  destruct (default (JObj []) (dict_get d "message")) as [| | | | |m] eqn:Hm;
    try discriminate H.
  simpl.
  destruct (has_tool_use_readable (JObj m) H) as [b Hb].
  destruct (extract_text_readable (JObj m) H) as [text Ht].
  destruct (is_str _ "assistant"); rewrite ?Hb; simpl.
  - destruct b; [eauto|]. rewrite Ht. simpl.
    destruct (negb _); [eauto|]. destruct (_ && _); eauto.
  - rewrite Ht. simpl.
    destruct (negb _); [eauto|]. destruct (_ && _); eauto.
Qed.

Lemma readable_is_record l : readable_line l = true -> is_record l = true.
Proof. destruct l as [[| | | | |d]|]; simpl; congruence. Qed.

Lemma find_summary_readable lines idxs :
  forallb readable_line lines = true ->
  Forall (fun i => i < length lines) idxs ->
  exists s, find_summary lines idxs = Ok s.
Proof.
  intros Hr. induction idxs as [|i idxs IH]; intros H; [simpl; eauto|].
  inversion H as [|? ? Hi Hrest]; subst. destruct (IH Hrest) as [s Hs].
  cbn [find_summary]. unfold line_at.
  destruct (lookup_lt_is_Some_2 lines i Hi) as [l Hl]. rewrite Hl. simpl.
  destruct l as [obj|]; [|eauto].
  rewrite forallb_forall in Hr.
  assert (Hobj : readable_line (Some obj) = true)
    by (apply Hr; eapply list_elem_of_In, list_elem_of_lookup_2; eassumption).
  destruct obj as [| | | | |d]; try discriminate Hobj. simpl in Hobj. simpl.
  destruct (default (JObj []) (dict_get d "message")) as [| | | | |m] eqn:Hm;
    try discriminate Hobj.
  simpl. destruct (is_str _ "user"); [|eauto].
  destruct (extract_text_readable (JObj m) Hobj) as [text Ht]. rewrite Ht. simpl.
  destruct (str_in summary_marker text); eauto.
Qed.

Lemma collect_conversation_readable py_str lines idxs :
  forallb readable_line lines = true ->
  Forall (fun i => i < length lines) idxs ->
  exists conv, collect_conversation py_str lines idxs = Ok conv.
Proof.
  intros Hr. induction idxs as [|i idxs IH]; intros H; [simpl; eauto|].
  inversion H as [|? ? Hi Hrest]; subst. destruct (IH Hrest) as [conv Hc].
  cbn [collect_conversation]. unfold line_at.
  destruct (lookup_lt_is_Some_2 lines i Hi) as [l Hl]. rewrite Hl. simpl.
  destruct l as [obj|]; [|eauto].
  rewrite forallb_forall in Hr.
  assert (Hobj : readable_line (Some obj) = true)
    by (apply Hr; eapply list_elem_of_In, list_elem_of_lookup_2; eassumption).
  destruct (conversation_entry_readable py_str obj Hobj) as [e ->]. simpl.
  rewrite Hc. simpl. eauto.
Qed.

(** X9. The parser returns, and does not raise, on every log in which
    each line either fails to decode or decodes to an object whose
    message (when present) is an object with joinable text blocks:
    lines that do not decode, records without a message, unknown record
    types and unknown block types are all passed over. *)
Theorem parse_jsonl_returns_on_readable_logs
    (py_str : json -> string) (lines : list line) :
  forallb readable_line lines = true ->
  exists p, parse_jsonl py_str lines = Ok p.
Proof.
  intros Hr. unfold parse_jsonl.
  assert (Hrec : forallb is_record lines = true).
  { apply forallb_forall. intros l Hl. apply readable_is_record.
    rewrite forallb_forall in Hr. auto. }
  destruct (find_boundaries_records 0 lines Hrec) as [bs Hbs]. rewrite Hbs. simpl.
  destruct bs as [|b bs]; [eauto|].
  assert (Hlast : last_boundary (b :: bs) < length lines).
  { apply find_boundaries_lt in Hbs. rewrite Forall_forall in Hbs.
    assert (In (last_boundary (b :: bs)) (b :: bs)).
    { unfold last_boundary. destruct (exists_last (l:=b :: bs)) as (bs' & x & ->);
        [discriminate|]. rewrite last_last. apply in_or_app. right. now left. }
    specialize (Hbs _ H). lia. }
  destruct (find_summary_readable lines
              (py_range (last_boundary (b :: bs) + 1)
                 (Nat.min (last_boundary (b :: bs) + 5) (length lines))) Hr)
    as [s ->].
  { apply Forall_forall. intros i Hi. apply py_range_in in Hi. lia. }
  destruct (collect_conversation_readable py_str lines
              (py_range (start_idx (b :: bs)) (last_boundary (b :: bs))) Hr)
    as [conv ->].
  { apply Forall_forall. intros i Hi. apply py_range_in in Hi. lia. }
  simpl. eauto.
Qed.

Lemma parse_jsonl_returns_on_readable_logs_witness :
  exists p, parse_jsonl no_str mixed_log = Ok p.
Proof.
  apply (parse_jsonl_returns_on_readable_logs no_str mixed_log). reflexivity.
Defined.

(** ** Stripped text *)





(** ** Further properties of the coordinator *)

Lemma lookup_inside_rmtree d (m : gmap path string) name :
  filter (fun kv : path * string => in_dir d kv.1 = false) m !! InDir d name = None.
Proof.
  apply map_lookup_filter_None_2. right. intros x _. simpl.
  rewrite String.eqb_refl. discriminate.
Qed.


Section CoordinatorFurther.

Variable py_str : json -> string.
Variable run : world -> prompt -> Z -> proc.
Variable isoformat : nat -> string.
Variable mkdtemp : world -> string.

Abbreviation main' := (main py_str run isoformat mkdtemp).

Ltac next_call :=
  rewrite call_claude_eq;
  match goal with
  | |- context [run ?w ?p ?t] =>
      let R := fresh "R" in
      destruct (run w p t) as [?rc ?out| |?n ?m] eqn:R
  end.

Ltac split_result :=
  match goal with
  | |- context [((?rc =? 0)%Z && truthy (strip ?out))] =>
      let Erc := fresh "Erc" in
      let Eout := fresh "Eout" in
      destruct (rc =? 0)%Z eqn:Erc; destruct (truthy (strip out)) eqn:Eout;
      simpl; rewrite ?Eout; simpl
  end.

Ltac all_leaves existing :=
  unfold try_block, pass1_extract; next_call; [split_result|..];
  try (destruct (truthy existing) eqn:?; simpl;
       [unfold pass2_merge; next_call; [split_result|..]|]);
  simpl.

(** Opens a run that did something: names its session and transcript
    and replaces [main] by the [try] block, the handlers and the
    clean-up. *)
Ltac open_run argv w Hargv :=
  let Hno := fresh "Hno" in
  let Hmain := fresh "Hmain" in
  let Hargv' := fresh "Hargv'" in
  destruct (main_cases py_str run isoformat mkdtemp argv w)
    as [Hno | (?prog' & ?sid' & ?tp' & ?rest' & ?lines & ?summary & ?turn & ?turns
               & Hargv' & _ & _ & Hmain)];
  [ rewrite Hno, ?new_events_same
  | rewrite Hargv in Hargv'; injection Hargv' as <- <- <- <-;
    rewrite Hmain; clear Hmain; simpl fst; simpl snd ].

Ltac failed_output Hfail :=
  exfalso; destruct Hfail as [Hfail | Hfail];
  [ match goal with E : (_ =? 0)%Z = true |- _ =>
      apply Z.eqb_eq in E; contradiction end
  | match goal with E : truthy (strip _) = true |- _ =>
      rewrite Hfail in E; discriminate E end ].

(** X10. When Pass 1 returns no output (a non-zero exit code, or
    output that is blank), the handover document and the readiness
    marker are left as they were, the merge is not called, the status
    is [error] with the message of Pass 1, and the error log holds the
    entry of the failure. *)
Theorem pass1_failure_keeps_document
    (argv : list string) (w : world) (prog sid tp : string) (rest : list string) :
  argv = prog :: sid :: tp :: rest ->
  pass1_no_output (new_events w (main' argv w).1) ->
  files (main' argv w).1 !! handover_path tp sid = files w !! handover_path tp sid
  /\ files (main' argv w).1 !! ready_marker sid = files w !! ready_marker sid
  /\ ~ pass2_invoked (new_events w (main' argv w).1)
  /\ (exists now,
        status_file (main' argv w).1
        = Some (Status "error" 0 0 sid now "Pass 1 returned no output"))
  /\ (exists n,
        files (main' argv w).1 !! error_log tp sid
        = Some (log_entry (isoformat n) "Pass 1 failed (no output from claude -p)")).
Proof.
  intros Hargv. open_run argv w Hargv.
  { intros (? & ? & ? & ? & [] & _). }
  set (existing := default "" (files w !! handover_path tp sid)).
  all_leaves existing;
    intros (sf & tf & rc1 & out1 & Hin & Hfail); events_in Hin; in_cases Hin;
    (simplify_eq; try (failed_output Hfail));
    (split; [lookups; reflexivity|]);
    (split; [lookups; reflexivity|]);
    (split; [intros (ef & ff & t & r & Hin2); events_in Hin2; in_cases Hin2|]);
    (split; [eexists; reflexivity|]);
    eexists; lookups; reflexivity.
Qed.


(** X11. When a call of the generator times out, in Pass 1 or in
    Pass 2, the handover document and the readiness marker are left as
    they were (a fragment that Pass 1 had returned is not saved), the
    status is [error] and the error log holds the entry of the
    timeout. *)
Theorem timeout_keeps_document
    (argv : list string) (w : world) (prog sid tp : string) (rest : list string) :
  argv = prog :: sid :: tp :: rest ->
  call_timed_out (new_events w (main' argv w).1) ->
  files (main' argv w).1 !! handover_path tp sid = files w !! handover_path tp sid
  /\ files (main' argv w).1 !! ready_marker sid = files w !! ready_marker sid
  /\ (exists now,
        status_file (main' argv w).1
        = Some (Status "error" 0 0 sid now "claude -p timed out"))
  /\ (exists n,
        files (main' argv w).1 !! error_log tp sid
        = Some (log_entry (isoformat n) "claude -p timed out")).
Proof.
  intros Hargv. open_run argv w Hargv.
  { intros (? & ? & [] ). }
  set (existing := default "" (files w !! handover_path tp sid)).
  all_leaves existing;
    intros (p & t & Hin); events_in Hin; in_cases Hin;
    (split; [lookups; reflexivity|]);
    (split; [lookups; reflexivity|]);
    (split; [eexists; reflexivity|]);
    eexists; lookups; reflexivity.
Qed.

(** X12. When a call of the generator raises another exception, the
    handover document and the readiness marker are left as they were,
    the status is [error] with the message of the exception, and the
    error log holds an entry with its type and its message. *)
Theorem exception_keeps_document
    (argv : list string) (w : world) (prog sid tp : string) (rest : list string)
    (type_name msg : string) :
  argv = prog :: sid :: tp :: rest ->
  call_raised (new_events w (main' argv w).1) type_name msg ->
  files (main' argv w).1 !! handover_path tp sid = files w !! handover_path tp sid
  /\ files (main' argv w).1 !! ready_marker sid = files w !! ready_marker sid
  /\ (exists now,
        status_file (main' argv w).1 = Some (Status "error" 0 0 sid now msg))
  /\ (exists n,
        files (main' argv w).1 !! error_log tp sid
        = Some (log_entry (isoformat n) (type_name +:+ ": " +:+ msg))).
Proof.
  intros Hargv. open_run argv w Hargv.
  { intros (? & ? & [] ). }
  set (existing := default "" (files w !! handover_path tp sid)).
  all_leaves existing;
    intros (p & t & Hin); events_in Hin; in_cases Hin;
    (simplify_eq;
     (split; [lookups; reflexivity|]);
     (split; [lookups; reflexivity|]);
     (split; [eexists; reflexivity|]);
     eexists; lookups; reflexivity).
Qed.

(** X13. When a prior handover document exists and both passes return
    output, the document on disk after the run is the output of the
    merge (not the fragment), the error log is left as it was, the
    status is [done] and the readiness marker holds the session
    identifier. *)
Theorem merge_success_document
    (argv : list string) (w : world) (prog sid tp : string) (rest : list string)
    (fragment merged : string) :
  argv = prog :: sid :: tp :: rest ->
  pass1_returned (new_events w (main' argv w).1) fragment ->
  pass2_returned (new_events w (main' argv w).1) merged ->
  files (main' argv w).1 !! handover_path tp sid = Some merged
  /\ files (main' argv w).1 !! error_log tp sid = files w !! error_log tp sid
  /\ (exists now, status_file (main' argv w).1 = Some (Status "done" 0 0 sid now ""))
  /\ files (main' argv w).1 !! ready_marker sid = Some sid.
Proof.
  intros Hargv. open_run argv w Hargv.
  { intros (? & ? & ? & [] & _). }
  set (existing := default "" (files w !! handover_path tp sid)).
  all_leaves existing;
    intros (sf & tf & out1 & Hin1 & Hs1 & Hne1) (ef & ff & out2 & Hin2 & Hs2 & Hne2);
    events_in Hin1; in_cases Hin1; events_in Hin2; in_cases Hin2;
    (simplify_eq;
     try (match goal with E : truthy (strip _) = false |- _ =>
            apply truthy_false in E; contradiction end);
     (split; [lookups; reflexivity|]);
     (split; [lookups; reflexivity|]);
     (split; [eexists; reflexivity|]);
     lookups; reflexivity).
Qed.

(** X14. A run that did anything began by making its scratch
    directory and ended by removing it, on every path (success, failed
    pass, timeout, exception): afterwards the directory is gone and no
    file is left in it. *)
Theorem scratch_directory_removed (argv : list string) (w : world) :
  new_events w (main' argv w).1 <> [] ->
  head (new_events w (main' argv w).1) = Some (EvMkdtemp (mkdtemp w))
  /\ list.last (new_events w (main' argv w).1) = Some (EvRmtree (mkdtemp w))
  /\ (mkdtemp w ∉ dirs (main' argv w).1)
  /\ forall name, files (main' argv w).1 !! InDir (mkdtemp w) name = None.
Proof.
  destruct (main_cases py_str run isoformat mkdtemp argv w)
    as [Hno | (prog & sid & tp & rest & lines & summary & turn & turns
               & _ & _ & _ & Hmain)].
  { rewrite Hno, new_events_same. congruence. }
  rewrite Hmain. clear Hmain. simpl fst. intros _.
  split; [|split; [|split]].
  3: { simpl. apply not_elem_of_difference. right. now apply elem_of_singleton. }
  3: { intros name. simpl. apply lookup_inside_rmtree. }
  all: set (existing := default "" (files w !! handover_path tp sid));
    all_leaves existing; events; reflexivity.
Qed.


(** X15. A run that did anything leaves the status at [done] or at
    [error], for its own session: it never ends with the status still
    at [pass1] or [pass2]. *)
Theorem final_status_is_terminal
    (argv : list string) (w : world) (prog sid tp : string) (rest : list string) :
  argv = prog :: sid :: tp :: rest ->
  new_events w (main' argv w).1 <> [] ->
  exists st,
    status_file (main' argv w).1 = Some st
    /\ session_id st = sid
    /\ (phase st = "done" \/ phase st = "error").
Proof.
  intros Hargv. open_run argv w Hargv; [congruence|]. intros _.
  set (existing := default "" (files w !! handover_path tp sid)).
  all_leaves existing; eexists; (split; [reflexivity|]); simpl; auto.
Qed.




(** X18. Every status a run writes names the session of the run and is
    one of: [pass1] with progress 1 of 2 when a prior document with
    content exists and 0 of 0 otherwise, [pass2] with progress 2 of 2,
    [done] with progress 0 of 0, all three without a message, or
    [error] with progress 0 of 0. *)
Theorem statuses_written
    (argv : list string) (w : world) (prog sid tp : string) (rest : list string)
    (st : status) :
  argv = prog :: sid :: tp :: rest ->
  In (EvWriteStatus st) (new_events w (main' argv w).1) ->
  session_id st = sid
  /\ ((phase st = "pass1" /\ error st = ""
       /\ (step st, total st)
          = (if truthy (default "" (files w !! handover_path tp sid))
             then (1, 2) else (0, 0))%Z)
      \/ (phase st = "pass2" /\ error st = "" /\ (step st, total st) = (2, 2)%Z)
      \/ (phase st = "done" /\ error st = "" /\ (step st, total st) = (0, 0)%Z)
      \/ (phase st = "error" /\ (step st, total st) = (0, 0)%Z)).
Proof.
  intros Hargv. open_run argv w Hargv; [intros []|].
  set (existing := default "" (files w !! handover_path tp sid)).
  all_leaves existing; intros Hin; events_in Hin; in_cases Hin;
    (simplify_eq; simpl; split; [reflexivity|];
     try destruct (truthy existing); tauto).
Qed.

(** X19. A run calls the generator at most twice and never calls it
    again after a failure: there is no call, or one extraction call
    with a timeout of 180 seconds, or that call followed by one merge
    call with a timeout of 120 seconds; the merge call is made only
    when the extraction returned output and a prior document with
    content exists. *)
Theorem generator_called_at_most_twice
    (argv : list string) (w : world) (prog sid tp : string) (rest : list string) :
  argv = prog :: sid :: tp :: rest ->
  generator_calls (new_events w (main' argv w).1) = []
  \/ (exists sf tf r,
        generator_calls (new_events w (main' argv w).1)
        = [(ExtractPrompt sf tf, 180%Z, r)])
  \/ (exists sf tf out ef ff r,
        generator_calls (new_events w (main' argv w).1)
        = [(ExtractPrompt sf tf, 180%Z, Completed 0 out); (MergePrompt ef ff, 120%Z, r)]
        /\ strip out <> ""
        /\ (exists prior, files w !! handover_path tp sid = Some prior /\ prior <> "")).
Proof.
  intros Hargv. open_run argv w Hargv; [now left|].
  destruct (files w !! handover_path tp sid) as [prior|] eqn:Hprior; simpl default.
  - all_leaves prior; events; simpl;
      first [ right; left; do 3 eexists; reflexivity
            | right; right; do 6 eexists;
              repeat match goal with
                     | E : (_ =? 0)%Z = true |- _ => apply Z.eqb_eq in E; subst
                     end;
              split; [reflexivity|];
              split; [apply truthy_true; assumption|];
              eexists; split; [reflexivity | apply truthy_true; assumption] ].
  - unfold try_block, pass1_extract; next_call; [split_result|..]; simpl;
      events; simpl; right; left; do 3 eexists; reflexivity.
Qed.

(** X20. A run does something exactly when [main] is given a session
    and a log path, the log exists, and the parser returns at least one
    turn.  With fewer arguments, without the log, without a compaction
    boundary, or with a compaction but no turn at all, nothing happens. *)
Theorem main_acts_only_on_turns (argv : list string) (w : world) :
  new_events w (main' argv w).1 <> []
  <-> exists prog sid tp rest lines summary turn turns,
        argv = prog :: sid :: tp :: rest
        /\ logs w !! tp = Some lines
        /\ parse_jsonl py_str lines = Ok (Parsed summary (turn :: turns)).
Proof.
  split.
  - intros H. destruct (main_cases py_str run isoformat mkdtemp argv w)
      as [Hno | (prog & sid & tp & rest & lines & summary & turn & turns
                 & Hargv & Hl & Hp & _)].
    + rewrite Hno, new_events_same in H. congruence.
    + exists prog, sid, tp, rest, lines, summary, turn, turns. auto.
  - intros (prog & sid & tp & rest & lines & summary & turn & turns
            & -> & Hl & Hp).
    unfold main. rewrite Hl, Hp. cbn [make_work_dir fst snd].
    set (existing := default "" (files w !! handover_path tp sid)).
    all_leaves existing; events; discriminate.
Qed.

End CoordinatorFurther.

(** ** The inject hook *)

Section InjectProperties.

Variable py_str : json -> string.
Variable num_truthy : string -> bool.
Variable path_str : path -> string.

Abbreviation inject := (inject_main py_str num_truthy path_str).

(** What the hook does on the input of a session with a name and a
    log path. *)
Lemma inject_main_session d sid tp w :
  dict_get d "session_id" = Some (JStr sid) ->
  dict_get d "transcript_path" = Some (JStr tp) ->
  sid <> "" -> tp <> "" ->
  inject (Some (JObj d)) w =
  match files w !! ready_marker sid with
  | None => (w, [], Returns)
  | Some _ =>
      (unlink (ready_marker sid) w,
       match files w !! handover_path tp sid with
       | None => []
       | Some _ => ["[HANDOVER] Read this file: " +:+ path_str (handover_path tp sid)]
       end,
       Returns)
  end.
Proof.
  intros Hs Ht Hsid Htp. unfold inject_main, ready_marker, handover_path. simpl.
  rewrite Hs, Ht. simpl.
  apply truthy_true in Hsid, Htp. rewrite Hsid, Htp. simpl.
  destruct (files w !! InClaudeHome _); [|reflexivity].
  destruct (files w !! BesideLog _ _); reflexivity.
Qed.

(** X21. For a session with a name and a log path, the hook prints the
    path of the handover document exactly when the readiness marker and
    the document both exist; it returns without raising; afterwards the
    marker is gone, whether or not the document was there; and every
    other file is left as it was. *)
Theorem inject_consumes_marker
    (d : list (string * json)) (sid tp : string) (w : world) :
  dict_get d "session_id" = Some (JStr sid) ->
  dict_get d "transcript_path" = Some (JStr tp) ->
  sid <> "" -> tp <> "" ->
  (is_Some (files w !! ready_marker sid) ->
   is_Some (files w !! handover_path tp sid) ->
   (inject (Some (JObj d)) w).1.2
   = ["[HANDOVER] Read this file: " +:+ path_str (handover_path tp sid)])
  /\ (files w !! ready_marker sid = None \/ files w !! handover_path tp sid = None ->
      (inject (Some (JObj d)) w).1.2 = [])
  /\ (inject (Some (JObj d)) w).2 = Returns
  /\ files (inject (Some (JObj d)) w).1.1 !! ready_marker sid = None
  /\ forall p, p <> ready_marker sid ->
               files (inject (Some (JObj d)) w).1.1 !! p = files w !! p.
Proof.
  intros Hs Ht Hsid Htp. rewrite (inject_main_session d sid tp w Hs Ht Hsid Htp).
  destruct (files w !! ready_marker sid) as [m|] eqn:Hm;
    destruct (files w !! handover_path tp sid) as [doc|] eqn:Hd; simpl.
  all: split; [intros [? ?] [? ?]; congruence|].
  all: split; [intros [?|?]; congruence|].
  all: split; [reflexivity|].
  all: split; [first [apply lookup_delete_eq | exact Hm]|].
  all: intros p Hp; first [reflexivity | apply lookup_delete_ne; congruence].
Qed.

(** X22. Run twice in a row on the same input, whatever the input, the
    hook prints nothing the second time and changes nothing more: the
    path of a document is shown once. *)
Theorem inject_twice (data : option json) (w : world) :
  (inject data (inject data w).1.1).1.2 = []
  /\ (inject data (inject data w).1.1).1.1 = (inject data w).1.1.
Proof.
  unfold inject_main. destruct data as [data|]; [|split; reflexivity].
  destruct (py_get data "session_id" (JStr "")) as [session_id|e];
    [|split; reflexivity].
  destruct (py_get data "transcript_path" (JStr "")) as [transcript_path|e];
    [|split; reflexivity].
  destruct (negb (json_truthy num_truthy session_id)
            || negb (json_truthy num_truthy transcript_path));
    [split; reflexivity|].
  set (marker := InClaudeHome (".handover-ready-" +:+ format_value py_str session_id)).
  destruct (files w !! marker) as [m|] eqn:Hm;
    [|cbn [fst snd]; rewrite Hm; split; reflexivity].
  assert (Hgone : files (unlink marker w) !! marker = None)
    by apply lookup_delete_eq.
  destruct transcript_path as [| | |t| |];
    try (cbn [fst snd]; rewrite Hm; split; reflexivity).
  destruct (files w !! BesideLog t _);
    cbn [fst snd]; rewrite Hgone; split; reflexivity.
Qed.

Variable run : world -> prompt -> Z -> proc.
Variable isoformat : nat -> string.
Variable mkdtemp : world -> string.

Abbreviation main' := (main py_str run isoformat mkdtemp).

Ltac next_call :=
  rewrite call_claude_eq;
  match goal with
  | |- context [run ?w ?p ?t] =>
      let R := fresh "R" in
      destruct (run w p t) as [?rc ?out| |?n ?m] eqn:R
  end.

Ltac split_result :=
  match goal with
  | |- context [((?rc =? 0)%Z && truthy (strip ?out))] =>
      let Erc := fresh "Erc" in
      let Eout := fresh "Eout" in
      destruct (rc =? 0)%Z eqn:Erc; destruct (truthy (strip out)) eqn:Eout;
      simpl; rewrite ?Eout; simpl
  end.

Ltac all_leaves existing :=
  unfold try_block, pass1_extract; next_call; [split_result|..];
  try (destruct (truthy existing) eqn:?; simpl;
       [unfold pass2_merge; next_call; [split_result|..]|]);
  simpl.

(** A run that wrote the readiness marker leaves the marker and a
    handover document behind. *)
Lemma marker_and_document argv w prog sid tp rest content :
  argv = prog :: sid :: tp :: rest ->
  In (EvWriteText (ready_marker sid) content) (new_events w (main' argv w).1) ->
  files (main' argv w).1 !! ready_marker sid = Some sid
  /\ exists doc, files (main' argv w).1 !! handover_path tp sid = Some doc.
Proof.
  intros Hargv.
  destruct (main_cases py_str run isoformat mkdtemp argv w)
    as [Hno | (prog' & sid' & tp' & rest' & lines & summary & turn & turns
               & Hargv' & _ & _ & Hmain)].
  { rewrite Hno, new_events_same. intros []. }
  rewrite Hargv in Hargv'. injection Hargv' as <- <- <- <-.
  rewrite Hmain. clear Hmain. simpl fst.
  set (existing := default "" (files w !! handover_path tp sid)).
  all_leaves existing; intros Hin; events_in Hin; in_cases Hin;
    (split; [lookups; reflexivity | eexists; lookups; reflexivity]).
Qed.

(** X23. After a run of the worker that wrote the readiness marker,
    the hook, given the same session and log path, prints the path of
    the handover document of that session, removes the marker and
    leaves the document in place. *)
Theorem worker_then_inject
    (argv : list string) (w : world) (prog sid tp : string) (rest : list string)
    (content : string) (d : list (string * json)) :
  argv = prog :: sid :: tp :: rest ->
  sid <> "" -> tp <> "" ->
  dict_get d "session_id" = Some (JStr sid) ->
  dict_get d "transcript_path" = Some (JStr tp) ->
  In (EvWriteText (ready_marker sid) content) (new_events w (main' argv w).1) ->
  inject (Some (JObj d)) (main' argv w).1
  = (unlink (ready_marker sid) (main' argv w).1,
     ["[HANDOVER] Read this file: " +:+ path_str (handover_path tp sid)],
     Returns)
  /\ files (unlink (ready_marker sid) (main' argv w).1) !! handover_path tp sid
     = files (main' argv w).1 !! handover_path tp sid
  /\ files (unlink (ready_marker sid) (main' argv w).1) !! ready_marker sid = None.
Proof.
  intros Hargv Hsid Htp Hs Ht Hin.
  destruct (marker_and_document argv w prog sid tp rest content Hargv Hin)
    as (Hm & doc & Hd).
  split; [|split].
  - rewrite (inject_main_session d sid tp _ Hs Ht Hsid Htp), Hm, Hd. reflexivity.
  - apply lookup_delete_ne. discriminate.
  - apply lookup_delete_eq.
Qed.

End InjectProperties.

(** ** The further properties on sample runs *)

Lemma pass1_failure_keeps_document_witness :
  files (sample_main (scripted (Completed 1 "partial") TimeoutExpired) merged_world).1
    !! handover_path "/p/s1.jsonl" "s1"
  = files merged_world !! handover_path "/p/s1.jsonl" "s1".
Proof.
  refine (proj1 (pass1_failure_keeps_document no_str
                   (scripted (Completed 1 "partial") TimeoutExpired)
                   sample_isoformat sample_mkdtemp sample_argv merged_world
                   "handover_worker.py" "s1" "/p/s1.jsonl" [] eq_refl _)).
  eexists _, _, 1%Z, "partial". split.
  - vm_compute. do 4 right. left. reflexivity.
  - left. discriminate.
Defined.

Lemma timeout_keeps_document_witness :
  files (sample_main (scripted (Completed 0 "# New") TimeoutExpired) merged_world).1
    !! handover_path "/p/s1.jsonl" "s1"
  = files merged_world !! handover_path "/p/s1.jsonl" "s1".
Proof.
  refine (proj1 (timeout_keeps_document no_str
                   (scripted (Completed 0 "# New") TimeoutExpired)
                   sample_isoformat sample_mkdtemp sample_argv merged_world
                   "handover_worker.py" "s1" "/p/s1.jsonl" [] eq_refl _)).
  eexists _, _. vm_compute. do 8 right. left. reflexivity.
Defined.

Lemma exception_keeps_document_witness :
  exists n,
    files (sample_main
             (scripted (Failed "FileNotFoundError" "claude not found") TimeoutExpired)
             fresh_world).1 !! error_log "/p/s1.jsonl" "s1"
    = Some (log_entry (sample_isoformat n)
              ("FileNotFoundError" +:+ ": " +:+ "claude not found")).
Proof.
  refine (proj2 (proj2 (proj2 (exception_keeps_document no_str
                   (scripted (Failed "FileNotFoundError" "claude not found")
                      TimeoutExpired)
                   sample_isoformat sample_mkdtemp sample_argv fresh_world
                   "handover_worker.py" "s1" "/p/s1.jsonl" []
                   "FileNotFoundError" "claude not found" eq_refl _)))).
  eexists _, _. vm_compute. do 4 right. left. reflexivity.
Defined.

Lemma merge_success_document_witness :
  files (sample_main (scripted (Completed 0 "# New") (Completed 0 "# Merged ")) merged_world).1
    !! handover_path "/p/s1.jsonl" "s1" = Some "# Merged".
Proof.
  refine (proj1 (merge_success_document no_str
                   (scripted (Completed 0 "# New") (Completed 0 "# Merged "))
                   sample_isoformat sample_mkdtemp sample_argv merged_world
                   "handover_worker.py" "s1" "/p/s1.jsonl" []
                   "# New" "# Merged" eq_refl _ _)).
  - eexists _, _, "# New". split; [|split].
    + vm_compute. do 4 right. left. reflexivity.
    + vm_compute. reflexivity.
    + discriminate.
  - eexists _, _, "# Merged ". split; [|split].
    + vm_compute. do 8 right. left. reflexivity.
    + vm_compute. reflexivity.
    + discriminate.
Defined.

Lemma scratch_directory_removed_witness :
  files (sample_main (scripted TimeoutExpired TimeoutExpired) fresh_world).1
    !! InDir "/tmp/handover_1" "transcript.txt" = None.
Proof.
  refine (proj2 (proj2 (proj2 (scratch_directory_removed no_str
                   (scripted TimeoutExpired TimeoutExpired)
                   sample_isoformat sample_mkdtemp sample_argv fresh_world _)))
            "transcript.txt").
  vm_compute. discriminate.
Defined.

Lemma final_status_is_terminal_witness :
  exists st,
    status_file (sample_main (scripted TimeoutExpired TimeoutExpired) fresh_world).1
    = Some st
    /\ session_id st = "s1"
    /\ (phase st = "done" \/ phase st = "error").
Proof.
  refine (final_status_is_terminal no_str (scripted TimeoutExpired TimeoutExpired)
            sample_isoformat sample_mkdtemp sample_argv fresh_world
            "handover_worker.py" "s1" "/p/s1.jsonl" [] eq_refl _).
  vm_compute. discriminate.
Defined.



Lemma statuses_written_witness :
  session_id (Status "pass1" 1 2 "s1" (sample_isoformat 0) "") = "s1".
Proof.
  refine (proj1 (statuses_written no_str
                   (scripted (Completed 0 "# New") (Completed 0 "# Merged"))
                   sample_isoformat sample_mkdtemp sample_argv merged_world
                   "handover_worker.py" "s1" "/p/s1.jsonl" []
                   (Status "pass1" 1 2 "s1" (sample_isoformat 0) "") eq_refl _)).
  vm_compute. right. left. reflexivity.
Defined.

Lemma generator_called_at_most_twice_witness :
  let evs :=
    new_events merged_world
      (sample_main (scripted (Completed 0 "# New") (Completed 0 "# Merged"))
         merged_world).1 in
  generator_calls evs = []
  \/ (exists sf tf r, generator_calls evs = [(ExtractPrompt sf tf, 180%Z, r)])
  \/ (exists sf tf out ef ff r,
        generator_calls evs
        = [(ExtractPrompt sf tf, 180%Z, Completed 0 out); (MergePrompt ef ff, 120%Z, r)]
        /\ strip out <> ""
        /\ (exists prior,
              files merged_world !! handover_path "/p/s1.jsonl" "s1" = Some prior
              /\ prior <> "")).
Proof.
  exact (generator_called_at_most_twice no_str
           (scripted (Completed 0 "# New") (Completed 0 "# Merged"))
           sample_isoformat sample_mkdtemp sample_argv merged_world
           "handover_worker.py" "s1" "/p/s1.jsonl" [] eq_refl).
Defined.

Lemma inject_consumes_marker_witness :
  (sample_inject (Some (JObj sample_hook_input)) ready_world).1.2
  = ["[HANDOVER] Read this file: /p/HANDOVER-s1.md"].
Proof.
  refine (proj1 (inject_consumes_marker no_str (fun _ => true) sample_path_str
                   sample_hook_input "s1" "/p/s1.jsonl" ready_world
                   eq_refl eq_refl _ _) _ _).
  - discriminate.
  - discriminate.
  - vm_compute. eauto.
  - vm_compute. eauto.
Defined.

Lemma worker_then_inject_witness :
  sample_inject (Some (JObj sample_hook_input))
    (sample_main (scripted (Completed 0 "# New") TimeoutExpired) fresh_world).1
  = (unlink (ready_marker "s1")
       (sample_main (scripted (Completed 0 "# New") TimeoutExpired) fresh_world).1,
     ["[HANDOVER] Read this file: " +:+ sample_path_str (handover_path "/p/s1.jsonl" "s1")],
     Returns).
Proof.
  refine (proj1 (worker_then_inject no_str (fun _ => true) sample_path_str
                   (scripted (Completed 0 "# New") TimeoutExpired)
                   sample_isoformat sample_mkdtemp sample_argv fresh_world
                   "handover_worker.py" "s1" "/p/s1.jsonl" [] "s1" sample_hook_input
                   eq_refl _ _ eq_refl eq_refl _)).
  - discriminate.
  - discriminate.
  - vm_compute. do 7 right. left. reflexivity.
Defined.
